(** * build_documentation.py: module names, render sessions and the entry loop

    A shallow embedding of [src/build_documentation.py].  Python strings are
    [string]s, [str] methods are the functions of [PyStr], the watch set of
    [RenderSession.render] is a [gset string], the loader list of the engine
    configuration is a [list] updated by index, and the calls into the
    documentation engine, [os] and [logging] are threaded through a small
    state-and-exception monad over an abstract world. *)

From Stdlib Require Import Ascii String List Bool Arith Lia.
From stdpp Require Import base option list gmap strings.

Local Open Scope string_scope.
Local Open Scope list_scope.

(** ** Python [str] methods used by the script *)

Module PyStr.

Definition nonempty (s : string) : bool :=
  match s with "" => false | String _ _ => true end.

Fixpoint drop (n : nat) (s : string) : string :=
  match n, s with
  | O, _ => s
  | S _, "" => ""
  | S n', String _ s' => drop n' s'
  end.

Fixpoint take (n : nat) (s : string) : string :=
  match n, s with
  | O, _ => ""
  | S _, "" => ""
  | S n', String a s' => String a (take n' s')
  end.

(** [s.startswith(p)] *)
Fixpoint startswith (s p : string) : bool :=
  match p, s with
  | "", _ => true
  | String _ _, "" => false
  | String b p', String a s' => Ascii.eqb a b && startswith s' p'
  end.

(** [s.endswith(suf)] *)
Fixpoint endswith (s suf : string) : bool :=
  String.eqb s suf ||
  match s with
  | "" => false
  | String _ s' => endswith s' suf
  end.

(** [s.removeprefix(p)]: [s[len(p):]] when [s.startswith(p)], else [s]. *)
Definition removeprefix (s p : string) : string :=
  if startswith s p then drop (String.length p) s else s.

(** [s.removesuffix(suf)]: [s[:-len(suf)]] when [suf] is not empty and
    [s.endswith(suf)], else [s]. *)
Definition removesuffix (s suf : string) : string :=
  if nonempty suf && endswith s suf
  then take (String.length s - String.length suf) s
  else s.

(** [s.split(c)] for a separator of one character: never the empty list. *)
Fixpoint split (c : ascii) (s : string) : list string :=
  match s with
  | "" => [""]
  | String a s' =>
      if Ascii.eqb a c then "" :: split c s'
      else match split c s' with
           | [] => [String a ""]
           | p :: ps => String a p :: ps
           end
  end.

(** [sep.join(parts)] *)
Fixpoint join (sep : string) (parts : list string) : string :=
  match parts with
  | [] => ""
  | [p] => p
  | p :: ps => p +:+ sep +:+ join sep ps
  end.

(** [old in s] *)
Fixpoint contains (s old : string) : bool :=
  startswith s old ||
  match s with
  | "" => false
  | String _ s' => contains s' old
  end.

(** [s.replace(old, new)] for a non-empty [old]: every occurrence, leftmost
    first, occurrences do not overlap.  [skip] counts the characters of a
    match that are still to be passed over. *)
Fixpoint replace_go (old new : string) (skip : nat) (s : string) : string :=
  match s with
  | "" => ""
  | String a s' =>
      match skip with
      | S k => replace_go old new k s'
      | O =>
          if startswith s old
          then new +:+ replace_go old new (String.length old - 1) s'
          else String a (replace_go old new O s')
      end
  end.

(** With an empty [old], Python puts [new] before every character and at
    the end. *)
Fixpoint intersperse (new s : string) : string :=
  match s with
  | "" => new
  | String a s' => new +:+ String a (intersperse new s')
  end.

Definition replace (s old new : string) : string :=
  match old with
  | "" => intersperse new s
  | String _ _ => replace_go old new O s
  end.

(** [l[-2]]: [None] stands for [IndexError]. *)
Definition index_neg2 {A} (l : list A) : option A :=
  match rev l with
  | _ :: x :: _ => Some x
  | _ => None
  end.

End PyStr.

(** ** [os.path] *)

Module OsPath.
Import PyStr.

Definition sep : ascii := "/"%char.

(** [posixpath.basename(p)]: what follows the last separator. *)
Definition basename (p : string) : string := List.last (split sep p) "".

(** [posixpath.join(a, b)] *)
Definition join2 (a b : string) : string :=
  if startswith b "/" then b
  else if negb (nonempty a) || endswith a "/" then a +:+ b
  else a +:+ "/" +:+ b.

(** [head.rstrip("/")] *)
Fixpoint rstrip_sep (s : string) : string :=
  match s with
  | "" => ""
  | String a s' =>
      let r := rstrip_sep s' in
      if Ascii.eqb a sep && negb (nonempty r) then "" else String a r
  end.

(** [posixpath.dirname(p)]: the path up to and with its last separator,
    without its trailing separators unless it is made of separators only. *)
Definition dirname (p : string) : string :=
  let head := take (String.length p - String.length (basename p)) p in
  if nonempty head && nonempty (rstrip_sep head) then rstrip_sep head else head.

End OsPath.

(** ** The Module Path Resolver *)

Definition file2module (file path : string) : string :=
  let file := PyStr.removeprefix file path in
  let file := PyStr.removesuffix file ".py" in
  let parts := filter (fun part => PyStr.nonempty part = true) (PyStr.split "/" file) in
  PyStr.join "." parts.

(** ** The documentation engine, [os] and [logging], as the script sees them *)

Section Engine.

(** What the script never looks into: the world outside (file system,
    log), an in-memory configuration, a loader that is not a
    [PythonLoader], the remaining fields of a loader and of the engine
    configuration, the content of a loaded module, and the exceptions of
    the engine and of [os]. *)
Context {World Dict OtherLoader LoaderRest EngineRest ModuleBody ExtExn : Type}.

Inductive Exn :=
| ValueError (msg : string)
| IndexError
| External (e : ExtExn).

(** [PythonLoader]: the four fields [_apply_overrides] assigns. *)
Record PythonLoader := mkPythonLoader {
  loader_modules : option (list string);
  loader_packages : option (list string);
  loader_search_path : option (list string);
  parser_print_function : bool;
  loader_rest : LoaderRest;
}.

Inductive Loader :=
| IsPythonLoader (l : PythonLoader)
| IsOtherLoader (l : OtherLoader).

Record PydocMarkdown := mkPydocMarkdown {
  loaders : list Loader;
  renderer_filename : option string;
  unknown_fields : list string;
  engine_rest : EngineRest;
}.

(** A module of the engine's API: [m.location.filename] and the rest. *)
Record ApiModule := mkApiModule {
  location_filename : string;
  module_body : ModuleBody;
}.

(** [config: None | dict | str] *)
Inductive ConfigSource :=
| ConfigNone
| ConfigDict (d : Dict)
| ConfigStr (path : string).

Record RenderSession := mkRenderSession {
  config : ConfigSource;
  render_toc : option bool;
  search_path : option (list string);
  modules : option (list string);
  packages : option (list string);
  py2 : option bool;
}.

(** What a run leaves behind, in order. *)
Inductive Event :=
| LogInfo (file : string)
| LogWarning (fields : list string)
| CallFile2module (file path : string)
| CallMakedirs (dir : string)
| NewSession (s : RenderSession)
| CallLoadConfig (c : ConfigSource)
| CallInit (directory : string)
| CallLoadModules
| CallProcess
| CallRender (filename : option string).

(** The calls that leave the script.  A method that mutates its receiver
    or its argument returns the object as it is left. *)
Class Externals := {
  PydocMarkdown_new : PydocMarkdown;
  dict_nonempty : Dict -> bool;
  pm_load_config : PydocMarkdown -> ConfigSource -> World -> World * (ExtExn + PydocMarkdown);
  pm_init : PydocMarkdown -> string -> World -> World * (ExtExn + PydocMarkdown);
  pm_load_modules : PydocMarkdown -> World -> World * (ExtExn + list ApiModule);
  pm_process : PydocMarkdown -> list ApiModule -> World -> World * (ExtExn + list ApiModule);
  pm_render : PydocMarkdown -> list ApiModule -> World -> World * (ExtExn + list ApiModule);
  os_path_abspath : string -> World -> string;
  os_walk : string -> World -> list (string * list string * list string);
  os_makedirs : string -> World -> World * (ExtExn + unit);
}.

Context {X : Externals}.

(** *** State, trace and exceptions *)

Definition M (A : Type) : Type := World -> World * list Event * (Exn + A).

Definition ret {A} (a : A) : M A := fun w => (w, [], inr a).

Definition raise {A} (e : Exn) : M A := fun w => (w, [], inl e).

Definition bind {A B} (m : M A) (k : A -> M B) : M B :=
  fun w =>
    match m w with
    | (w1, t1, inl e) => (w1, t1, inl e)
    | (w1, t1, inr a) =>
        match k a w1 with
        | (w2, t2, r) => (w2, t1 ++ t2, r)
        end
    end.

Definition emit (ev : Event) : M unit := fun w => (w, [ev], inr tt).

Definition call {A} (ev : Event) (f : World -> World * (ExtExn + A)) : M A :=
  fun w =>
    match f w with
    | (w', inl e) => (w', [ev], inl (External e))
    | (w', inr a) => (w', [ev], inr a)
    end.

Definition get {A} (f : World -> A) : M A := fun w => (w, [], inr (f w)).

Definition of_result {A} (r : Exn + A) : M A :=
  match r with inl e => raise e | inr a => ret a end.

Notation "x <- m ;; k" := (bind m (fun x => k))
  (at level 100, m at next level, right associativity).
Notation "m ;;; k" := (bind m (fun _ => k))
  (at level 100, right associativity).

Fixpoint for_each {A} (l : list A) (body : A -> M unit) : M unit :=
  match l with
  | [] => ret tt
  | x :: l' => body x ;;; for_each l' body
  end.

(** *** Truthiness *)

Definition truthy_list (o : option (list string)) : bool :=
  match o with
  | Some (_ :: _) => true
  | _ => false
  end.

Definition truthy_config (c : ConfigSource) : bool :=
  match c with
  | ConfigNone => false
  | ConfigDict d => dict_nonempty d
  | ConfigStr s => PyStr.nonempty s
  end.

Definition is_not_None {A} (o : option A) : bool :=
  match o with Some _ => true | None => false end.

(** *** [RenderSession] *)

(** [next((l for l in config.loaders if isinstance(l, PythonLoader)), None)]
    with the position of the loader in the list, where it is assigned. *)
Fixpoint first_python_loader (ls : list Loader) : option (nat * PythonLoader) :=
  match ls with
  | [] => None
  | IsPythonLoader l :: _ => Some (O, l)
  | IsOtherLoader _ :: ls' =>
      match first_python_loader ls' with
      | Some (i, l) => Some (S i, l)
      | None => None
      end
  end.

(** The Python loaders of a loader list, in order. *)
Fixpoint python_loaders (ls : list Loader) : list PythonLoader :=
  match ls with
  | [] => []
  | IsPythonLoader l :: ls' => l :: python_loaders ls'
  | IsOtherLoader _ :: ls' => python_loaders ls'
  end.

Definition print_function_of (l : Loader) : option bool :=
  match l with
  | IsPythonLoader l => Some (parser_print_function l)
  | IsOtherLoader _ => None
  end.

Definition set_modules (l : PythonLoader) (v : option (list string)) :=
  mkPythonLoader v (loader_packages l) (loader_search_path l)
                 (parser_print_function l) (loader_rest l).
Definition set_packages (l : PythonLoader) (v : option (list string)) :=
  mkPythonLoader (loader_modules l) v (loader_search_path l)
                 (parser_print_function l) (loader_rest l).
Definition set_search_path (l : PythonLoader) (v : option (list string)) :=
  mkPythonLoader (loader_modules l) (loader_packages l) v
                 (parser_print_function l) (loader_rest l).
Definition set_print_function (l : PythonLoader) (v : bool) :=
  mkPythonLoader (loader_modules l) (loader_packages l) (loader_search_path l)
                 v (loader_rest l).
Definition set_loaders (c : PydocMarkdown) (ls : list Loader) :=
  mkPydocMarkdown ls (renderer_filename c) (unknown_fields c) (engine_rest c).
Definition set_renderer_filename (c : PydocMarkdown) (f : string) :=
  mkPydocMarkdown (loaders c) (Some f) (unknown_fields c) (engine_rest c).

(** The four assignments of lines 90 to 97 on the loader found. *)
Definition override_loader (self : RenderSession) (loader : PythonLoader) : PythonLoader :=
  let loader := if truthy_list (modules self)
                then set_modules loader (modules self) else loader in
  let loader := if truthy_list (packages self)
                then set_packages loader (packages self) else loader in
  let loader := if truthy_list (search_path self)
                then set_search_path loader (search_path self) else loader in
  match py2 self with
  | Some b => set_print_function loader (negb b)
  | None => loader
  end.

Definition overrides_requested (self : RenderSession) : bool :=
  truthy_list (modules self) || truthy_list (packages self)
  || truthy_list (search_path self) || is_not_None (py2 self).

(** Lines 79 to 97.  The loader found is an object, so [not loader] holds
    only for the [None] of [next]; the assignments are made on the loader
    inside [config.loaders], here an update of the list at its position. *)
Definition _apply_overrides (self : RenderSession) (config : PydocMarkdown)
  : Exn + PydocMarkdown :=
  if overrides_requested self then
    match first_python_loader (loaders config) with
    | None => inl (ValueError "no python loader found")
    | Some (i, loader) =>
        inr (set_loaders config
               (<[i := IsPythonLoader (override_loader self loader)]> (loaders config)))
    end
  else inr config.

(** Lines 106 to 108: the engine configuration before the overrides, a
    matter of [self.config] alone. *)
Definition loaded_config (source : ConfigSource) : M PydocMarkdown :=
  let config0 := PydocMarkdown_new in
  if truthy_config source
  then call (CallLoadConfig source) (pm_load_config config0 source)
  else ret config0.

Definition load (self : RenderSession) : M PydocMarkdown :=
  config1 <- loaded_config (config self) ;;
  config2 <- of_result (_apply_overrides self config1) ;;
  config3 <- match config self with
             | ConfigStr path =>
                 abs <- get (os_path_abspath path) ;;
                 let directory := OsPath.dirname abs in
                 call (CallInit directory) (pm_init config2 directory)
             | _ => ret config2
             end ;;
  (match unknown_fields config3 with
   | _ :: _ => emit (LogWarning (unknown_fields config3))
   | [] => ret tt
   end) ;;;
  ret config3.

(** Lines 138 to 140: the set comprehension and the [add]. *)
Definition watch_set (self : RenderSession) (modules_ : list ApiModule) : gset string :=
  let watch_files : gset string := list_to_set (location_filename <$> modules_) in
  match config self with
  | ConfigStr path => watch_files ∪ {[ path ]}
  | _ => watch_files
  end.

(** [list(watch_files)] lists the set in an order Python does not fix;
    [elements] is one such order, and nothing below depends on which. *)
Definition render (self : RenderSession) (config_ : PydocMarkdown) : M (list string) :=
  modules0 <- call CallLoadModules (pm_load_modules config_) ;;
  modules1 <- call CallProcess (pm_process config_ modules0) ;;
  modules2 <- call (CallRender (renderer_filename config_)) (pm_render config_ modules1) ;;
  ret (elements (watch_set self modules2)).

(** Lines 220 to 222: load, point the renderer at the output file, render. *)
Definition load_and_render (session : RenderSession) (output_file : string)
  : M (list string) :=
  pydocmd <- load session ;;
  render session (set_renderer_filename pydocmd output_file).

(** *** The entry orchestration *)

Definition normalize_dir (d : string) : string :=
  if PyStr.endswith d "/" then d else d +:+ "/".

(** [package_dir.split("/")[-2]] *)
Definition package_name_of (package_dir : string) : option string :=
  PyStr.index_neg2 (PyStr.split "/" package_dir).

(** Lines 192 to 195 on what [os.walk] yields. *)
Definition collect (skip_files : list string)
    (walked : list (string * list string * list string)) : list string :=
  flat_map
    (fun '(root, _, files) =>
       OsPath.join2 root <$>
         List.filter
           (fun _file => PyStr.endswith _file ".py"
                         && negb (bool_decide (_file ∈ skip_files)))
           files)
    walked.

(** The guard of line 205: [true] when the file is passed over. *)
Definition skipped (skip_files : list string) (package_name file : string) : bool :=
  bool_decide (OsPath.basename file ∈ skip_files)
  || negb (PyStr.contains file package_name).

Definition output_path (package_dir docs_dir file : string) : string :=
  PyStr.replace (PyStr.replace file package_dir docs_dir) ".py" ".md".

(** The body of the loop of line 204 for a file that is not passed over. *)
Definition process_file (config_ package_dir docs_dir file : string) : M unit :=
  let render_toc_ := true in
  let search_path_ := [package_dir] in
  let packages_ : list string := [] in
  let py2_ := false in
  emit (LogInfo file) ;;;
  emit (CallFile2module file package_dir) ;;;
  let modules_ := [file2module file package_dir] in
  let output_file := output_path package_dir docs_dir file in
  call (CallMakedirs (OsPath.dirname output_file))
       (os_makedirs (OsPath.dirname output_file)) ;;;
  let session :=
    mkRenderSession (ConfigStr config_) (Some render_toc_) (Some search_path_)
                    (Some modules_) (Some packages_) (Some py2_) in
  emit (NewSession session) ;;;
  load_and_render session output_file ;;;
  ret tt.

Definition main (config_ package_dir docs_dir : string) (skip_files : list string)
    (src_files : option (list string)) : M unit :=
  let package_dir := normalize_dir package_dir in
  let docs_dir := normalize_dir docs_dir in
  package_name <- match package_name_of package_dir with
                  | Some n => ret n
                  | None => raise IndexError
                  end ;;
  src_files <- match src_files with
               | None => get (fun w => collect skip_files (os_walk package_dir w))
               | Some l => ret l
               end ;;
  for_each src_files
    (fun file =>
       if skipped skip_files package_name file then ret tt
       else process_file config_ package_dir docs_dir file).

End Engine.

(** ** A small engine to run the script on

    The world is the list of the output files written so far.  Loading a
    configuration installs the loaders [yaml]; the Python loader yields one
    module per name of its [modules]; rendering writes the renderer's file;
    the package directory holds the tree [tree], given as [os.walk] lists
    it, with roots relative to the top. *)

Module Toy.

Definition py_loader (mods pkgs sp : option (list string)) (pf : bool)
  : @PythonLoader unit :=
  mkPythonLoader mods pkgs sp pf tt.

Definition engine_config (ls : list (@Loader unit unit))
  : @PydocMarkdown unit unit unit :=
  mkPydocMarkdown ls None [] tt.

Definition api_module (name : string) : @ApiModule unit :=
  mkApiModule (name +:+ ".py") tt.

Definition discovered (c : @PydocMarkdown unit unit unit) : list (@ApiModule unit) :=
  match first_python_loader (loaders c) with
  | Some (_, l) => api_module <$> default [] (loader_modules l)
  | None => []
  end.

Definition written (c : @PydocMarkdown unit unit unit) (w : list string) : list string :=
  match renderer_filename c with
  | Some f => w ++ [f]
  | None => w
  end.

Definition externals (yaml : list (@Loader unit unit))
    (tree : list (string * list string * list string))
  : @Externals (list string) unit unit unit unit unit unit :=
  {| PydocMarkdown_new := engine_config [IsPythonLoader (py_loader None None None true)];
     dict_nonempty := fun _ => true;
     pm_load_config := fun c _ w => (w, inr (set_loaders c yaml));
     pm_init := fun c _ w => (w, inr c);
     pm_load_modules := fun c w => (w, inr (discovered c));
     pm_process := fun _ ms w => (w, inr ms);
     pm_render := fun c ms w => (written c w, inr ms);
     os_path_abspath := fun p _ => "/work/" +:+ p;
     os_walk := fun top _ => (fun '(r, ds, fs) => (top +:+ r, ds, fs)) <$> tree;
     os_makedirs := fun _ w => (w, inr tt) |}.

(** The same engine with a processor that drops the modules of the file
    [dropped] from the list it is given, as a filter that skips empty
    modules does. *)
Definition filtering_externals (dropped : string) (yaml : list (@Loader unit unit))
    (tree : list (string * list string * list string))
  : @Externals (list string) unit unit unit unit unit unit :=
  {| PydocMarkdown_new := engine_config [IsPythonLoader (py_loader None None None true)];
     dict_nonempty := fun _ => true;
     pm_load_config := fun c _ w => (w, inr (set_loaders c yaml));
     pm_init := fun c _ w => (w, inr c);
     pm_load_modules := fun c w => (w, inr (discovered c));
     pm_process := fun _ ms w =>
       (w, inr (List.filter
                  (fun m => negb (String.eqb (location_filename m) dropped)) ms));
     pm_render := fun c ms w => (written c w, inr ms);
     os_path_abspath := fun p _ => "/work/" +:+ p;
     os_walk := fun top _ => (fun '(r, ds, fs) => (top +:+ r, ds, fs)) <$> tree;
     os_makedirs := fun _ w => (w, inr tt) |}.

(** The default of [--skip_files]. *)
Definition skip_default : list string := ["__init__.py"; "version.py"].

Definition python_yaml : list (@Loader unit unit) :=
  [IsPythonLoader (py_loader None None None true)].

Definition other_yaml : list (@Loader unit unit) := [IsOtherLoader tt].

Definition session (c : @ConfigSource unit) (sp mods pkgs : option (list string))
    (legacy : option bool) : @RenderSession unit :=
  mkRenderSession c None sp mods pkgs legacy.

End Toy.

(** ** Notions the statements below are written with *)

(** The non-empty pieces of a path between separators. *)
Definition path_segments (stem : string) : list string :=
  filter (fun part => PyStr.nonempty part = true) (PyStr.split "/" stem).

(** A dotted name read back: every piece between dots is non-empty. *)
Definition no_empty_segments (name : string) : bool :=
  forallb PyStr.nonempty (PyStr.split "." name).

Definition leading_dot (name : string) : bool := PyStr.startswith name ".".

Definition trailing_dot (name : string) : bool := PyStr.endswith name ".".

Definition well_formed_dotted (name : string) : bool :=
  no_empty_segments name && negb (leading_dot name) && negb (trailing_dot name).

Fixpoint has_char (c : ascii) (s : string) : bool :=
  match s with
  | "" => false
  | String a s' => Ascii.eqb a c || has_char c s'
  end.

(** The output path in the words of the specification: the package
    directory prefix gives way to the docs directory, the ".py" suffix to
    ".md", nothing else changes. *)
Definition spec_output_path (package_dir docs_dir file : string) : string :=
  docs_dir +:+ PyStr.removesuffix (PyStr.removeprefix file package_dir) ".py" +:+ ".md".

(** The last non-empty piece of a path between separators, if there is one. *)
Definition last_nonempty_segment (p : string) : option string :=
  last (path_segments p).

(** The trace, the result and the final world of a run from the world [w]. *)
Definition events {World Dict ExtExn A : Type} (m : @M World Dict ExtExn A) (w : World)
  : list (@Event Dict) := (m w).1.2.

Definition outcome {World Dict ExtExn A : Type} (m : @M World Dict ExtExn A) (w : World)
  : @Exn ExtExn + A := (m w).2.

Definition final_world {World Dict ExtExn A : Type} (m : @M World Dict ExtExn A)
    (w : World) : World := (m w).1.1.

(** Every event of every run of [m] satisfies [P]. *)
Definition all_events {World Dict ExtExn A : Type} (P : @Event Dict -> Prop)
    (m : @M World Dict ExtExn A) : Prop :=
  forall w, Forall P (events m w).

(** An event of the engine's discovery, processing or rendering. *)
Definition is_rendering {Dict : Type} (ev : @Event Dict) : bool :=
  match ev with
  | CallLoadModules | CallProcess | CallRender _ => true
  | _ => false
  end.

(** An event of [RenderSession.load]. *)
Definition is_loading {Dict : Type} (ev : @Event Dict) : bool :=
  match ev with
  | CallLoadConfig _ | CallInit _ | LogWarning _ => true
  | _ => false
  end.

(** What an event of the entry loop says about a source file whose base
    name is not in the skip list: it is the file logged, the file resolved,
    the file whose output directory is made, the one module of the session,
    the file whose output path is rendered to. *)
Definition from_unskipped {Dict : Type} (skip_files : list string)
    (package_dir docs_dir : string) (ev : @Event Dict) : Prop :=
  match ev with
  | LogInfo f => OsPath.basename f ∉ skip_files
  | CallFile2module f root => (OsPath.basename f ∉ skip_files) /\ root = package_dir
  | CallMakedirs d =>
      exists f, (OsPath.basename f ∉ skip_files)
                /\ d = OsPath.dirname (output_path package_dir docs_dir f)
  | NewSession s =>
      exists f, (OsPath.basename f ∉ skip_files)
                /\ modules s = Some [file2module f package_dir]
  | CallRender o =>
      exists f, (OsPath.basename f ∉ skip_files)
                /\ o = Some (output_path package_dir docs_dir f)
  | _ => True
  end.

(** What an event of the loop body run on [file] says: [file] is the file
    logged and resolved, its output directory is made, its module is the
    one module of the session, its output path is rendered to. *)
Definition of_file {Dict : Type} (package_dir docs_dir file : string)
    (ev : @Event Dict) : Prop :=
  match ev with
  | LogInfo f => f = file
  | CallFile2module f root => f = file /\ root = package_dir
  | CallMakedirs d => d = OsPath.dirname (output_path package_dir docs_dir file)
  | NewSession s => modules s = Some [file2module file package_dir]
  | CallRender o => o = Some (output_path package_dir docs_dir file)
  | _ => True
  end.

(** A trace made of one block per file, in the order of the files: the
    block of a file is its trace [block f w] from some world [w]. *)
Inductive made_of_blocks {World Dict : Type}
    (block : string -> World -> list (@Event Dict))
  : list string -> list (@Event Dict) -> Prop :=
| blocks_nil : made_of_blocks block [] []
| blocks_cons f w fs t :
    made_of_blocks block fs t -> made_of_blocks block (f :: fs) (block f w ++ t).

(** The files logged by the entry loop and the output files the engine was
    asked to render, as a trace lists them. *)
Definition logged {Dict : Type} (t : list (@Event Dict)) : list string :=
  flat_map (fun ev => match ev with LogInfo f => [f] | _ => [] end) t.

Definition rendered_to {Dict : Type} (t : list (@Event Dict)) : list (option string) :=
  flat_map (fun ev => match ev with CallRender o => [o] | _ => [] end) t.

(** Every exception of every run of [m] satisfies [Q]. *)
Definition raises_only {World Dict ExtExn A : Type} (Q : @Exn ExtExn -> Prop)
    (m : @M World Dict ExtExn A) : Prop :=
  forall w w' t e, m w = (w', t, inl e) -> Q e.

(** The exceptions of the script: the missing Python loader, or one that
    comes from the engine or from [os]. *)
Definition script_error {ExtExn : Type} (e : @Exn ExtExn) : Prop :=
  e = ValueError "no python loader found" \/ exists x, e = External x.

(** * Facts about the string functions *)

Module PyStrFacts.
Import PyStr.

Lemma app_nil_l (s : string) : "" +:+ s = s.
Proof. reflexivity. Qed.

Lemma app_cons (a : ascii) (s t : string) : String a s +:+ t = String a (s +:+ t).
Proof. reflexivity. Qed.

Lemma app_nil_r (s : string) : s +:+ "" = s.
Proof. induction s as [|a s IH]; [reflexivity|]. rewrite app_cons, IH. reflexivity. Qed.

Lemma app_assoc (s t u : string) : (s +:+ t) +:+ u = s +:+ (t +:+ u).
Proof.
  induction s as [|a s IH]; [reflexivity|].
  rewrite !app_cons, IH. reflexivity.
Qed.

Lemma length_app (s t : string) :
  String.length (s +:+ t) = String.length s + String.length t.
Proof.
  induction s as [|a s IH]; [reflexivity|].
  rewrite app_cons. simpl. rewrite IH. reflexivity.
Qed.

Lemma nonempty_true (s : string) : nonempty s = true <-> s <> "".
Proof. destruct s; simpl; split; congruence. Qed.

Lemma nonempty_false (s : string) : nonempty s = false <-> s = "".
Proof. destruct s; simpl; split; congruence. Qed.

(** *** Prefixes *)

Lemma startswith_app (r m : string) : startswith (r +:+ m) r = true.
Proof.
  induction r as [|a r IH]; [destruct m; reflexivity|].
  rewrite app_cons. simpl. rewrite Ascii.eqb_refl. exact IH.
Qed.

Lemma startswith_inv (s p : string) :
  startswith s p = true -> s = p +:+ drop (String.length p) s.
Proof.
  revert s. induction p as [|b p IH]; intros s H.
  - reflexivity.
  - destruct s as [|a s]; [discriminate|]. simpl in H.
    apply andb_true_iff in H as [Hab Hs].
    apply Ascii.eqb_eq in Hab. subst b.
    rewrite app_cons. simpl. f_equal. apply IH, Hs.
Qed.

Lemma drop_app (r m : string) : drop (String.length r) (r +:+ m) = m.
Proof.
  induction r as [|a r IH]; [destruct m; reflexivity|].
  rewrite app_cons. simpl. exact IH.
Qed.

Lemma removeprefix_app (r m : string) : removeprefix (r +:+ m) r = m.
Proof. unfold removeprefix. rewrite startswith_app. apply drop_app. Qed.

(** *** Suffixes *)

Lemma endswith_app (m suf : string) : endswith (m +:+ suf) suf = true.
Proof.
  induction m as [|a m IH].
  - rewrite app_nil_l. destruct suf; simpl; [reflexivity|].
    rewrite Ascii.eqb_refl, String.eqb_refl. reflexivity.
  - rewrite app_cons. simpl. rewrite IH. apply orb_true_r.
Qed.

Lemma endswith_inv (s suf : string) :
  endswith s suf = true -> exists m, s = m +:+ suf.
Proof.
  induction s as [|a s IH]; intros H.
  - cbn [endswith] in H. rewrite orb_false_r in H. apply String.eqb_eq in H.
    exists "". rewrite <- H. reflexivity.
  - cbn [endswith] in H. apply orb_true_iff in H as [H|H].
    + apply String.eqb_eq in H. exists "". rewrite <- H. reflexivity.
    + destruct (IH H) as [m ->]. exists (String a m). reflexivity.
Qed.

Lemma take_app (m suf : string) :
  take (String.length (m +:+ suf) - String.length suf) (m +:+ suf) = m.
Proof.
  rewrite length_app.
  replace (String.length m + String.length suf - String.length suf)
    with (String.length m) by lia.
  induction m as [|a m IH]; [destruct suf; reflexivity|].
  rewrite app_cons. simpl. rewrite IH. reflexivity.
Qed.

Lemma removesuffix_app (m suf : string) :
  suf <> "" -> removesuffix (m +:+ suf) suf = m.
Proof.
  intros Hs. unfold removesuffix.
  apply nonempty_true in Hs. rewrite Hs, endswith_app. apply take_app.
Qed.

Lemma removesuffix_no (s suf : string) :
  endswith s suf = false -> removesuffix s suf = s.
Proof. intros H. unfold removesuffix. rewrite H, andb_false_r. reflexivity. Qed.

(** *** [split] and [join] *)

Lemma split_nonnil (c : ascii) (s : string) : split c s <> [].
Proof.
  destruct s as [|a s]; simpl; [discriminate|].
  destruct (Ascii.eqb a c); [discriminate|].
  destruct (split c s); discriminate.
Qed.

Lemma split_cons_sep (c : ascii) (s : string) :
  split c (String c s) = "" :: split c s.
Proof. simpl. rewrite Ascii.eqb_refl. reflexivity. Qed.

Lemma split_app_sep (c : ascii) (s1 s2 : string) :
  split c (s1 +:+ String c s2) = split c s1 ++ split c s2.
Proof.
  induction s1 as [|a s1 IH].
  - rewrite app_nil_l, split_cons_sep. reflexivity.
  - rewrite app_cons. simpl. rewrite IH.
    destruct (Ascii.eqb a c); [reflexivity|].
    pose proof (split_nonnil c s1) as Hne.
    destruct (split c s1) as [|p ps]; [congruence|]. reflexivity.
Qed.

Lemma split_snoc_sep (c : ascii) (s : string) :
  split c (s +:+ String c "") = split c s ++ [""].
Proof. apply split_app_sep. Qed.

Lemma join_cons2 (sep p q : string) (ps : list string) :
  join sep (p :: q :: ps) = p +:+ sep +:+ join sep (q :: ps).
Proof. reflexivity. Qed.

Lemma split_join (c : ascii) (parts : list string) :
  parts <> [] ->
  split c (join (String c "") parts) = concat (split c <$> parts).
Proof.
  induction parts as [|p ps IH]; [congruence|]. intros _.
  destruct ps as [|q ps].
  - simpl. rewrite List.app_nil_r. reflexivity.
  - rewrite join_cons2, app_cons, app_nil_l, split_app_sep.
    rewrite IH by discriminate. reflexivity.
Qed.

End PyStrFacts.

(** * The Module Path Resolver *)

Section File2module.
Import PyStr PyStrFacts.

Lemma no_empty_segments_leading (s : string) :
  no_empty_segments s = true -> leading_dot s = false.
Proof.
  unfold no_empty_segments, leading_dot.
  destruct s as [|a s]; [reflexivity|]. simpl.
  destruct (Ascii.eqb a "."); [discriminate|]. reflexivity.
Qed.

Lemma no_empty_segments_trailing (s : string) :
  no_empty_segments s = true -> trailing_dot s = false.
Proof.
  unfold no_empty_segments, trailing_dot. intros H.
  destruct (endswith s ".") eqn:E; [|reflexivity].
  apply endswith_inv in E as [m ->].
  rewrite split_snoc_sep, forallb_app in H. simpl in H.
  rewrite andb_false_r in H. discriminate.
Qed.

Lemma well_formed_dotted_eq (s : string) :
  well_formed_dotted s = no_empty_segments s.
Proof.
  unfold well_formed_dotted.
  destruct (no_empty_segments s) eqn:E; [|reflexivity].
  rewrite (no_empty_segments_leading s E), (no_empty_segments_trailing s E).
  reflexivity.
Qed.

Lemma no_empty_segments_join (parts : list string) :
  no_empty_segments (join "." parts) = true <->
  parts <> [] /\ Forall (fun p => no_empty_segments p = true) parts.
Proof.
  destruct parts as [|p ps].
  - split; [discriminate|]. intros [H _]. congruence.
  - unfold no_empty_segments at 1. rewrite split_join by discriminate.
    split.
    + intros H. split; [discriminate|].
      revert H. generalize (p :: ps). intros l.
      induction l as [|q l IH]; intros H; [constructor|].
      cbn [fmap list_fmap concat] in H. rewrite forallb_app in H.
      apply andb_true_iff in H as [Hq Hl].
      constructor; [exact Hq | apply IH, Hl].
    + intros [_ H]. induction H as [|q l Hq _ IH]; [reflexivity|].
      cbn [fmap list_fmap concat]. rewrite forallb_app.
      apply andb_true_iff. split; [exact Hq | exact IH].
Qed.

Lemma well_formed_dotted_join (parts : list string) :
  well_formed_dotted (join "." parts) = true <->
  parts <> [] /\ Forall (fun p => well_formed_dotted p = true) parts.
Proof.
  rewrite well_formed_dotted_eq, no_empty_segments_join.
  split; intros [Hne H]; (split; [exact Hne|]);
    eapply Forall_impl; try exact H; intros q Hq; simpl in *;
    [rewrite well_formed_dotted_eq | rewrite <- well_formed_dotted_eq]; exact Hq.
Qed.

Lemma path_segments_nonempty (stem : string) :
  Forall (fun p => p <> "") (path_segments stem).
Proof.
  apply Forall_forall. intros p Hp.
  apply list_elem_of_filter in Hp as [Hp _].
  apply nonempty_true, Hp.
Qed.

(** No piece of a split holds the separator. *)
Lemma split_has_char (c : ascii) (s : string) :
  Forall (fun p => has_char c p = false) (split c s).
Proof.
  induction s as [|a s IH]; simpl.
  - constructor; [reflexivity | constructor].
  - destruct (Ascii.eqb a c) eqn:E.
    + constructor; [reflexivity | exact IH].
    + destruct (split c s) as [|p ps]; simpl.
      * constructor; [simpl; rewrite E; reflexivity | constructor].
      * inversion IH as [|? ? Hp Hps]; subst.
        constructor; [simpl; rewrite E; exact Hp | exact Hps].
Qed.

Lemma has_char_app (c : ascii) (s t : string) :
  has_char c (s +:+ t) = has_char c s || has_char c t.
Proof.
  induction s as [|a s IH]; [reflexivity|].
  rewrite app_cons. simpl. rewrite IH, orb_assoc. reflexivity.
Qed.

Lemma has_char_join (c : ascii) (sep : string) (parts : list string) :
  has_char c sep = false ->
  Forall (fun p => has_char c p = false) parts ->
  has_char c (join sep parts) = false.
Proof.
  intros Hsep H. induction H as [|p ps Hp Hps IH]; [reflexivity|].
  destruct ps as [|q ps]; [exact Hp|].
  rewrite join_cons2, !has_char_app, Hp, Hsep, IH. reflexivity.
Qed.

Lemma file2module_has_no_separator (file path : string) :
  has_char "/" (file2module file path) = false.
Proof.
  unfold file2module. apply has_char_join; [reflexivity|].
  apply Forall_forall. intros p Hp.
  apply list_elem_of_filter in Hp as [_ Hp].
  pose proof (split_has_char "/" (removesuffix (removeprefix file path) ".py")) as H.
  rewrite Forall_forall in H. apply H, Hp.
Qed.

(** C1 (as the code has it): for a file [f] that starts with the root [r]
    and ends in ".py", [file2module f r] is the join with dots of the
    non-empty pieces, between separators, of [f] without the root and
    without a trailing ".py".  No joined piece is empty.  The result has no
    empty piece between dots and no leading or trailing dot exactly when
    there is at least one piece and every piece is itself such a name, so
    when no directory or file name brings a stray dot of its own.  The two
    examples of the specification hold. *)
Theorem file2module_under_root (f r : string) :
  startswith f r = true ->
  endswith f ".py" = true ->
  exists m stem,
    f = r +:+ m
    /\ (m = stem +:+ ".py" \/ (endswith m ".py" = false /\ stem = m))
    /\ file2module f r = join "." (path_segments stem)
    /\ Forall (fun p => p <> "") (path_segments stem)
    /\ (well_formed_dotted (file2module f r) = true <->
        path_segments stem <> []
        /\ Forall (fun p => well_formed_dotted p = true) (path_segments stem))
    /\ file2module "/a/b/pkg/mod.py" "/a/b/" = "pkg.mod"
    /\ file2module "/a/b/pkg/sub/mod.py" "/a/b/" = "pkg.sub.mod".
Proof.
  intros Hr _.
  pose proof (startswith_inv f r Hr) as Hf.
  set (m := drop (String.length r) f) in *.
  assert (Hm : removeprefix f r = m).
  { rewrite Hf at 1. apply removeprefix_app. }
  assert (Hstem : exists stem,
             (m = stem +:+ ".py" \/ (endswith m ".py" = false /\ stem = m))
             /\ removesuffix m ".py" = stem).
  { destruct (endswith m ".py") eqn:E.
    - destruct (endswith_inv m ".py" E) as [stem Hs]. exists stem.
      split; [left; exact Hs|]. rewrite Hs. apply removesuffix_app. discriminate.
    - exists m. split; [right; split; reflexivity|]. apply removesuffix_no, E. }
  destruct Hstem as (stem & Hcase & Hstem).
  assert (Hres : file2module f r = join "." (path_segments stem)).
  { unfold file2module. rewrite Hm, Hstem. reflexivity. }
  exists m, stem.
  split; [exact Hf|]. split; [exact Hcase|]. split; [exact Hres|].
  split; [apply path_segments_nonempty|].
  split; [rewrite Hres; apply well_formed_dotted_join|].
  split; reflexivity.
Qed.

Lemma file2module_under_root_witness :
  exists m stem,
    "/a/b/pkg/mod.py" = "/a/b/" +:+ m
    /\ (m = stem +:+ ".py" \/ (endswith m ".py" = false /\ stem = m))
    /\ file2module "/a/b/pkg/mod.py" "/a/b/" = join "." (path_segments stem)
    /\ Forall (fun p => p <> "") (path_segments stem)
    /\ (well_formed_dotted (file2module "/a/b/pkg/mod.py" "/a/b/") = true <->
        path_segments stem <> []
        /\ Forall (fun p => well_formed_dotted p = true) (path_segments stem))
    /\ file2module "/a/b/pkg/mod.py" "/a/b/" = "pkg.mod"
    /\ file2module "/a/b/pkg/sub/mod.py" "/a/b/" = "pkg.sub.mod".
Proof.
  apply (file2module_under_root "/a/b/pkg/mod.py" "/a/b/"); reflexivity.
Defined.

(** C1 as stated fails: a hidden file under the root gives a name with an
    empty piece between two dots, and one right under the root gives a
    name that starts with a dot. *)
Lemma file2module_under_root_stray_dot :
  startswith "/a/b/pkg/.conf.py" "/a/b/" = true
  /\ endswith "/a/b/pkg/.conf.py" ".py" = true
  /\ file2module "/a/b/pkg/.conf.py" "/a/b/" = "pkg..conf"
  /\ no_empty_segments (file2module "/a/b/pkg/.conf.py" "/a/b/") = false
  /\ startswith "/a/b/.conf.py" "/a/b/" = true
  /\ endswith "/a/b/.conf.py" ".py" = true
  /\ file2module "/a/b/.conf.py" "/a/b/" = ".conf"
  /\ leading_dot (file2module "/a/b/.conf.py" "/a/b/") = true.
Proof. repeat split; reflexivity. Qed.

(** C10 (as the code has it): [file2module] is a function of its two
    arguments, defined on all of them.  Whatever the arguments, the result
    is the join with dots of the non-empty pieces of the path left by the
    two removals, it holds no path separator, and it has no empty piece
    between dots and no leading or trailing dot exactly when there is at
    least one piece and every piece is itself such a name.  A root that is
    not a prefix is not removed, and a path that does not end in ".py"
    keeps its end. *)
Theorem file2module_total (file path : string) :
  let segs := path_segments (removesuffix (removeprefix file path) ".py") in
  file2module file path = join "." segs
  /\ Forall (fun p => p <> "") segs
  /\ has_char "/" (file2module file path) = false
  /\ (well_formed_dotted (file2module file path) = true <->
      segs <> [] /\ Forall (fun p => well_formed_dotted p = true) segs)
  /\ (startswith file path = false ->
      file2module file path = join "." (path_segments (removesuffix file ".py")))
  /\ (startswith file path = false -> endswith file ".py" = false ->
      file2module file path = join "." (path_segments file))
  /\ (forall file' path', file' = file -> path' = path ->
      file2module file' path' = file2module file path).
Proof.
  intros segs.
  split; [reflexivity|]. split; [apply path_segments_nonempty|].
  split; [apply file2module_has_no_separator|].
  split; [apply well_formed_dotted_join|].
  split; [|split].
  - intros H. unfold file2module, removeprefix. rewrite H. reflexivity.
  - intros H1 H2. unfold file2module, removeprefix. rewrite H1.
    rewrite (removesuffix_no _ _ H2). reflexivity.
  - intros file' path' -> ->. reflexivity.
Qed.

Lemma file2module_total_witness :
  file2module "./pkg/a.py" "pkg/" = join "." (path_segments "./pkg/a")
  /\ file2module "README" "pkg/" = join "." (path_segments "README").
Proof.
  split.
  - destruct (file2module_total "./pkg/a.py" "pkg/") as (_ & _ & _ & _ & H & _).
    apply H. reflexivity.
  - destruct (file2module_total "README" "pkg/") as (_ & _ & _ & _ & _ & H & _).
    apply H; reflexivity.
Defined.

(** C10 as stated fails: with a root that is not a prefix, a path that
    starts with "./" gives a name that starts with two dots. *)
Lemma file2module_total_stray_dot :
  startswith "./pkg/a.py" "pkg/" = false
  /\ file2module "./pkg/a.py" "pkg/" = "..pkg.a"
  /\ leading_dot (file2module "./pkg/a.py" "pkg/") = true
  /\ no_empty_segments (file2module "./pkg/a.py" "pkg/") = false.
Proof. repeat split; reflexivity. Qed.

End File2module.

(** * The package name *)

Section PackageName.
Import PyStr PyStrFacts.

Lemma normalize_dir_endswith (d : string) : endswith (normalize_dir d) "/" = true.
Proof.
  unfold normalize_dir. destruct (endswith d "/") eqn:E; [exact E|].
  apply endswith_app.
Qed.

Lemma index_neg2_snoc {A} (l : list A) (x : A) : index_neg2 (l ++ [x]) = last l.
Proof.
  unfold index_neg2. rewrite rev_app_distr. simpl.
  destruct l as [|y l _] using rev_ind; [reflexivity|].
  rewrite rev_app_distr, last_snoc. reflexivity.
Qed.

Lemma package_name_of_snoc_sep (s : string) :
  package_name_of (s +:+ "/") = last (split "/" s).
Proof. unfold package_name_of. rewrite split_snoc_sep. apply index_neg2_snoc. Qed.

Lemma last_split_is_Some (c : ascii) (s : string) : exists n, last (split c s) = Some n.
Proof.
  pose proof (split_nonnil c s) as H.
  destruct (split c s) as [|p ps _] using rev_ind; [congruence|].
  exists p. apply last_snoc.
Qed.

(** The last piece of a split is empty only for the empty string and for
    a string that ends with the separator. *)
Lemma last_split_empty (c : ascii) (s : string) :
  last (split c s) = Some "" -> s = "" \/ exists s', s = s' +:+ String c "".
Proof.
  induction s as [|a s IH]; intros H; [left; reflexivity|]. right.
  simpl in H. destruct (Ascii.eqb a c) eqn:E.
  - apply Ascii.eqb_eq in E. subst a.
    pose proof (split_nonnil c s) as Hne.
    destruct (split c s) as [|p ps] eqn:Es; [congruence|].
    change (last ("" :: p :: ps)) with (last (p :: ps)) in H.
    destruct (IH H) as [-> | [s' ->]].
    + exists "". reflexivity.
    + exists (String c s'). reflexivity.
  - pose proof (split_nonnil c s) as Hne.
    destruct (split c s) as [|p ps] eqn:Es; [congruence|].
    destruct ps as [|q ps].
    + simpl in H. discriminate.
    + change (last (String a p :: q :: ps)) with (last (p :: q :: ps)) in H.
      destruct (IH H) as [-> | [s' ->]].
      * simpl in Es. discriminate.
      * exists (String a s'). reflexivity.
Qed.

Lemma last_filter {A} (P : A -> Prop) `{forall x, Decision (P x)} (l : list A) (x : A) :
  last l = Some x -> P x -> last (filter P l) = Some x.
Proof.
  intros Hl Hx. apply last_Some in Hl as [l' ->].
  rewrite filter_app. cbn [filter list_filter].
  destruct (decide (P x)); [|contradiction]. apply last_snoc.
Qed.

Lemma path_segments_snoc_sep (s : string) :
  path_segments (s +:+ "/") = path_segments s.
Proof.
  unfold path_segments. rewrite split_snoc_sep, filter_app.
  cbn. apply List.app_nil_r.
Qed.

Lemma path_segments_normalize_dir (d : string) :
  path_segments (normalize_dir d) = path_segments d.
Proof.
  unfold normalize_dir. destruct (endswith d "/"); [reflexivity|].
  apply path_segments_snoc_sep.
Qed.

(** C6 (as the code has it): both directories are made to end with a
    separator, the index [-2] is always in range, and the package name is
    the piece just before the final separator of the package directory.
    That piece is empty exactly when the directory is "/" (also from the
    empty string) or ends with two separators; in every other case it is
    the last non-empty piece of the package directory. *)
Theorem package_name_last_segment (package_dir docs_dir : string) :
  let pd := normalize_dir package_dir in
  endswith pd "/" = true
  /\ endswith (normalize_dir docs_dir) "/" = true
  /\ exists n,
       package_name_of pd = Some n
       /\ (n = "" <-> pd = "/" \/ endswith pd "//" = true)
       /\ (n <> "" -> last_nonempty_segment package_dir = Some n).
Proof.
  intros pd.
  split; [apply normalize_dir_endswith|].
  split; [apply normalize_dir_endswith|].
  destruct (endswith_inv pd "/" (normalize_dir_endswith package_dir)) as [s Hs].
  destruct (last_split_is_Some "/" s) as [n Hn].
  exists n. rewrite Hs, package_name_of_snoc_sep.
  split; [exact Hn|]. split; [split|].
  - intros ->. destruct (last_split_empty _ _ Hn) as [-> | [s' ->]].
    + left. reflexivity.
    + right. rewrite app_assoc. apply endswith_app.
  - assert (Hsplit : forall m, s +:+ "/" = m +:+ "/" -> split "/" s = split "/" m).
    { intros m Hm. apply (f_equal (split "/")) in Hm.
      rewrite !split_snoc_sep in Hm. apply app_inj_tail in Hm as [Hm _]. exact Hm. }
    intros [H | H].
    + rewrite (Hsplit "" H) in Hn. simpl in Hn. congruence.
    + apply endswith_inv in H as [m Hm].
      change (m +:+ "//") with (m +:+ ("/" +:+ "/")) in Hm.
      rewrite <- app_assoc in Hm.
      rewrite (Hsplit _ Hm), split_snoc_sep, last_snoc in Hn. congruence.
  - intros Hne. unfold last_nonempty_segment.
    rewrite <- path_segments_normalize_dir. fold pd. rewrite Hs.
    rewrite path_segments_snoc_sep. unfold path_segments.
    apply last_filter; [exact Hn|]. apply nonempty_true, Hne.
Qed.

Lemma package_name_last_segment_witness :
  package_name_of (normalize_dir "erptools") = Some "erptools"
  /\ last_nonempty_segment "erptools" = Some "erptools".
Proof.
  destruct (package_name_last_segment "erptools" "./docs/erptools")
    as (_ & _ & n & Hn & _ & Hlast).
  vm_compute in Hn. injection Hn as <-.
  split; [reflexivity|]. apply Hlast. discriminate.
Defined.

(** C6 as stated fails: with a doubled final separator the package name
    is empty, while the directory has a last non-empty piece. *)
Lemma package_name_doubled_separator :
  normalize_dir "pkg//" = "pkg//"
  /\ package_name_of (normalize_dir "pkg//") = Some ""
  /\ last_nonempty_segment "pkg//" = Some "pkg".
Proof. repeat split; reflexivity. Qed.

End PackageName.

(** * Applying the overrides *)

Section Overrides.
Context {Dict OtherLoader LoaderRest EngineRest ExtExn : Type}.

Implicit Types (self : @RenderSession Dict).
Implicit Types (cfg : @PydocMarkdown OtherLoader LoaderRest EngineRest).
Implicit Types (ls : list (@Loader OtherLoader LoaderRest)).
Implicit Types (loader : @PythonLoader LoaderRest).

Local Abbreviation apply_overrides :=
  (@_apply_overrides Dict OtherLoader LoaderRest EngineRest ExtExn).

Lemma first_python_loader_lookup ls i loader :
  first_python_loader ls = Some (i, loader) ->
  ls !! i = Some (IsPythonLoader loader).
Proof.
  revert i. induction ls as [|[l|o] ls IH]; intros i H; simpl in H.
  - discriminate.
  - injection H as <- <-. reflexivity.
  - destruct (first_python_loader ls) as [[j l]|]; [|discriminate].
    injection H as <- <-. simpl. apply IH. reflexivity.
Qed.

Lemma first_python_loader_insert ls i loader loader' :
  first_python_loader ls = Some (i, loader) ->
  first_python_loader (<[i := IsPythonLoader loader']> ls) = Some (i, loader').
Proof.
  revert i. induction ls as [|[l|o] ls IH]; intros i H; simpl in H.
  - discriminate.
  - injection H as <- <-. reflexivity.
  - destruct (first_python_loader ls) as [[j l]|] eqn:E; [|discriminate].
    injection H as <- <-. simpl. rewrite (IH j eq_refl). reflexivity.
Qed.

Lemma first_python_loader_none ls :
  python_loaders ls = [] -> first_python_loader ls = None.
Proof.
  induction ls as [|[l|o] ls IH]; simpl; intros H.
  - reflexivity.
  - discriminate.
  - rewrite (IH H). reflexivity.
Qed.

Lemma override_loader_fields self loader :
  let loader' := override_loader self loader in
  loader_modules loader' =
    (if truthy_list (modules self) then modules self else loader_modules loader)
  /\ loader_packages loader' =
    (if truthy_list (packages self) then packages self else loader_packages loader)
  /\ loader_search_path loader' =
    (if truthy_list (search_path self) then search_path self
     else loader_search_path loader)
  /\ parser_print_function loader' =
    match py2 self with
    | Some b => negb b
    | None => parser_print_function loader
    end
  /\ loader_rest loader' = loader_rest loader.
Proof.
  unfold override_loader.
  destruct (truthy_list (modules self)), (truthy_list (packages self)),
    (truthy_list (search_path self)), (py2 self); repeat split; reflexivity.
Qed.

(** C3 (as the code has it): when the overrides are triggered and a Python
    loader is found, that loader is updated in its place in the loader
    list: [modules], [packages] and [search_path] are replaced exactly when
    the matching override is a non-empty list (an override that is [None]
    or an empty list leaves the field as it was), the parser's
    print-as-function setting is replaced exactly when the legacy flag is
    not [None], the other loaders and the rest of the configuration stay.
    With only [search_path] given, [modules] and [packages] of the loader
    are untouched. *)
Theorem apply_overrides_fields self cfg i loader :
  overrides_requested self = true ->
  first_python_loader (loaders cfg) = Some (i, loader) ->
  exists loader',
    apply_overrides self cfg =
      inr (set_loaders cfg (<[i := IsPythonLoader loader']> (loaders cfg)))
    /\ first_python_loader (<[i := IsPythonLoader loader']> (loaders cfg))
       = Some (i, loader')
    /\ loader_modules loader' =
         (if truthy_list (modules self) then modules self else loader_modules loader)
    /\ loader_packages loader' =
         (if truthy_list (packages self) then packages self
          else loader_packages loader)
    /\ loader_search_path loader' =
         (if truthy_list (search_path self) then search_path self
          else loader_search_path loader)
    /\ parser_print_function loader' =
         match py2 self with
         | Some b => negb b
         | None => parser_print_function loader
         end
    /\ loader_rest loader' = loader_rest loader
    /\ (forall j, j <> i ->
          <[i := IsPythonLoader loader']> (loaders cfg) !! j = loaders cfg !! j)
    /\ (modules self = None -> packages self = None ->
        loader_modules loader' = loader_modules loader
        /\ loader_packages loader' = loader_packages loader).
Proof.
  intros Hreq Hfind. exists (override_loader self loader).
  destruct (override_loader_fields self loader) as (Hm & Hp & Hs & Hf & Hr).
  split; [unfold _apply_overrides; rewrite Hreq, Hfind; reflexivity|].
  split; [apply first_python_loader_insert with loader, Hfind|].
  split; [exact Hm|]. split; [exact Hp|]. split; [exact Hs|].
  split; [exact Hf|]. split; [exact Hr|]. split.
  - intros j Hj. apply list_lookup_insert_ne. congruence.
  - intros Hmn Hpn. rewrite Hm, Hp, Hmn, Hpn. split; reflexivity.
Qed.

(** C7: with a legacy flag [b] that is not [None] and a Python loader
    found, the overrides succeed and the loader's print-as-function
    setting becomes [negb b]; with the flag [None], whatever else is
    overridden, no loader's setting changes. *)
Theorem apply_overrides_print_function self cfg :
  (forall b i loader,
      py2 self = Some b ->
      first_python_loader (loaders cfg) = Some (i, loader) ->
      exists cfg' loader',
        apply_overrides self cfg = inr cfg'
        /\ first_python_loader (loaders cfg') = Some (i, loader')
        /\ loaders cfg' !! i = Some (IsPythonLoader loader')
        /\ parser_print_function loader' = negb b)
  /\ (py2 self = None ->
      forall cfg', apply_overrides self cfg = inr cfg' ->
        print_function_of <$> loaders cfg' = print_function_of <$> loaders cfg).
Proof.
  split.
  - intros b i loader Hb Hfind.
    assert (Hreq : overrides_requested self = true).
    { unfold overrides_requested. rewrite Hb. simpl. apply orb_true_r. }
    destruct (override_loader_fields self loader) as (_ & _ & _ & Hpf & _).
    pose proof (first_python_loader_insert _ _ _ (override_loader self loader) Hfind)
      as Hfirst.
    exists (set_loaders cfg
              (<[i := IsPythonLoader (override_loader self loader)]> (loaders cfg))),
      (override_loader self loader).
    split; [unfold _apply_overrides; rewrite Hreq, Hfind; reflexivity|].
    split; [exact Hfirst|].
    split; [apply first_python_loader_lookup, Hfirst|].
    rewrite Hpf, Hb. reflexivity.
  - intros Hnone cfg'. unfold _apply_overrides.
    destruct (overrides_requested self); [|intros [= <-]; reflexivity].
    destruct (first_python_loader (loaders cfg)) as [[i loader]|] eqn:Hfind;
      [|discriminate].
    intros [= <-]. cbn [loaders set_loaders].
    rewrite list_fmap_insert. apply list_insert_id.
    rewrite list_lookup_fmap, (first_python_loader_lookup _ _ _ Hfind).
    cbn. f_equal.
    destruct (override_loader_fields self loader) as (_ & _ & _ & Hpf & _).
    rewrite Hpf, Hnone. reflexivity.
Qed.

End Overrides.

Lemma apply_overrides_fields_witness :
  exists loader',
    @_apply_overrides unit unit unit unit unit
      (Toy.session ConfigNone (Some ["src/"]) None None None)
      (Toy.engine_config [IsOtherLoader tt;
                          IsPythonLoader (Toy.py_loader (Some ["m"]) (Some ["p"]) None true)])
    = inr (Toy.engine_config [IsOtherLoader tt; IsPythonLoader loader'])
    /\ loader_modules loader' = Some ["m"]
    /\ loader_packages loader' = Some ["p"]
    /\ loader_search_path loader' = Some ["src/"].
Proof.
  destruct (@apply_overrides_fields unit unit unit unit unit
              (Toy.session ConfigNone (Some ["src/"]) None None None)
              (Toy.engine_config [IsOtherLoader tt;
                 IsPythonLoader (Toy.py_loader (Some ["m"]) (Some ["p"]) None true)])
              1 (Toy.py_loader (Some ["m"]) (Some ["p"]) None true)
              eq_refl eq_refl)
    as (loader' & Heq & _ & Hm & Hp & Hs & _).
  exists loader'. split; [exact Heq|]. split; [exact Hm|]. split; [exact Hp | exact Hs].
Defined.

(** C3 as stated fails: an empty package list is supplied, not [None], and
    the overrides are triggered by the legacy flag, yet the loader keeps its
    packages. *)
Lemma apply_overrides_empty_list_kept :
  let self := Toy.session ConfigNone None None (Some []) (Some false) in
  let loader := Toy.py_loader None (Some ["p"]) None false in
  packages self = Some []
  /\ overrides_requested self = true
  /\ @_apply_overrides unit unit unit unit unit self
       (Toy.engine_config [IsPythonLoader loader])
     = inr (Toy.engine_config
              [IsPythonLoader (Toy.py_loader None (Some ["p"]) None true)]).
Proof. repeat split; reflexivity. Qed.

Lemma apply_overrides_print_function_witness :
  exists cfg' loader',
    @_apply_overrides unit unit unit unit unit
      (Toy.session ConfigNone None None None (Some true))
      (Toy.engine_config [IsPythonLoader (Toy.py_loader None None None true)])
    = inr cfg'
    /\ first_python_loader (loaders cfg') = Some (0, loader')
    /\ loaders cfg' !! 0 = Some (IsPythonLoader loader')
    /\ parser_print_function loader' = false.
Proof.
  apply (proj1 (@apply_overrides_print_function unit unit unit unit unit
                  (Toy.session ConfigNone None None None (Some true))
                  (Toy.engine_config
                     [IsPythonLoader (Toy.py_loader None None None true)]))
           true 0 (Toy.py_loader None None None true) eq_refl eq_refl).
Defined.

(** * Runs of the session and of the entry loop *)

Section Runs.
Context {World Dict OtherLoader LoaderRest EngineRest ModuleBody ExtExn : Type}.
Context {X : @Externals World Dict OtherLoader LoaderRest EngineRest ModuleBody ExtExn}.

Implicit Types (self : @RenderSession Dict) (w : World).
Implicit Types (cfg : @PydocMarkdown OtherLoader LoaderRest EngineRest).
Implicit Types (P : @Event Dict -> Prop).

Local Abbreviation Run A := (@M World Dict ExtExn A).

(** *** The monad *)

Lemma bind_inl {A B} (m : Run A) (k : A -> Run B) w w1 t1 e :
  m w = (w1, t1, inl e) -> bind m k w = (w1, t1, inl e).
Proof. intros H. unfold bind. rewrite H. reflexivity. Qed.

Lemma bind_inr {A B} (m : Run A) (k : A -> Run B) w w1 t1 a w2 t2 r :
  m w = (w1, t1, inr a) -> k a w1 = (w2, t2, r) ->
  bind m k w = (w2, t1 ++ t2, r).
Proof. intros H1 H2. unfold bind. rewrite H1, H2. reflexivity. Qed.

Lemma bind_ret_l {A B} (a : A) (k : A -> Run B) w : bind (ret a) k w = k a w.
Proof. unfold bind, ret. destruct (k a w) as [[w2 t2] r]. reflexivity. Qed.

Lemma all_events_ret {A} P (a : A) : all_events P (ret a : Run A).
Proof. intros w. constructor. Qed.

Lemma all_events_raise {A} P e : all_events P (raise e : Run A).
Proof. intros w. constructor. Qed.

Lemma all_events_get {A} P (f : World -> A) : all_events P (get f : Run A).
Proof. intros w. constructor. Qed.

Lemma all_events_emit P ev : P ev -> all_events P (emit ev : Run unit).
Proof. intros H w. constructor; [exact H | constructor]. Qed.

Lemma all_events_call {A} P ev (f : World -> World * (ExtExn + A)) :
  P ev -> all_events P (call ev f : Run A).
Proof.
  intros H w. unfold events, call.
  destruct (f w) as [w' [e|a]]; (constructor; [exact H | constructor]).
Qed.

Lemma all_events_of_result {A} P (r : @Exn ExtExn + A) :
  all_events P (of_result r : Run A).
Proof. destruct r; [apply all_events_raise | apply all_events_ret]. Qed.

Lemma all_events_bind {A B} P (m : Run A) (k : A -> Run B) :
  all_events P m -> (forall a, all_events P (k a)) -> all_events P (bind m k).
Proof.
  intros Hm Hk w. specialize (Hm w). unfold events, bind in *.
  destruct (m w) as [[w1 t1] [e|a]]; [exact Hm|].
  specialize (Hk a w1). unfold events in Hk.
  destruct (k a w1) as [[w2 t2] r]. simpl in *.
  apply Forall_app. split; assumption.
Qed.

Lemma all_events_impl {A} P (Q : @Event Dict -> Prop) (m : Run A) :
  (forall ev, P ev -> Q ev) -> all_events P m -> all_events Q m.
Proof. intros H Hm w. eapply Forall_impl; [apply Hm | exact H]. Qed.

Lemma all_events_for_each {A} P (l : list A) (body : A -> Run unit) :
  (forall x, x ∈ l -> all_events P (body x)) -> all_events P (for_each l body).
Proof.
  induction l as [|x l IH]; intros H; simpl.
  - apply all_events_ret.
  - apply all_events_bind.
    + apply H. left.
    + intros _. apply IH. intros y Hy. apply H. right. exact Hy.
Qed.

(** Files passed over at the head of the list leave no trace. *)
Lemma for_each_passed_over {A} (pre l : list A) (body : A -> Run unit) w :
  Forall (fun x => body x = ret tt) pre ->
  for_each (pre ++ l) body w = for_each l body w.
Proof.
  induction 1 as [|x pre Hx _ IH]; [reflexivity|].
  simpl. rewrite Hx, bind_ret_l. exact IH.
Qed.

(** *** [load] and [render] *)

Lemma loaded_config_events (source : @ConfigSource Dict) :
  all_events (fun ev => ev = CallLoadConfig source) (loaded_config source).
Proof.
  unfold loaded_config. destruct (truthy_config source).
  - apply all_events_call. reflexivity.
  - apply all_events_ret.
Qed.

Lemma loaded_config_error (source : @ConfigSource Dict) w w1 t e :
  loaded_config source w = (w1, t, inl e) -> exists x, e = External x.
Proof.
  unfold loaded_config. destruct (truthy_config source); [|discriminate].
  unfold call. destruct (pm_load_config _ _ w) as [w' [x|c]]; intros [= <- <- <-].
  exists x. reflexivity.
Qed.

Lemma load_events self : all_events (fun ev => is_loading ev = true) (load self).
Proof.
  unfold load. apply all_events_bind.
  { eapply all_events_impl; [|apply loaded_config_events]. intros ev ->. reflexivity. }
  intros c1. apply all_events_bind; [apply all_events_of_result|].
  intros c2. apply all_events_bind.
  { destruct (config self); try apply all_events_ret.
    apply all_events_bind; [apply all_events_get|].
    intros a. apply all_events_call. reflexivity. }
  intros c3. apply all_events_bind; [|intros _; apply all_events_ret].
  destruct (unknown_fields c3); [apply all_events_ret|].
  apply all_events_emit. reflexivity.
Qed.

Lemma render_events self cfg :
  all_events
    (fun ev => ev = CallLoadModules \/ ev = CallProcess
               \/ ev = CallRender (renderer_filename cfg))
    (render self cfg).
Proof.
  unfold render. apply all_events_bind; [apply all_events_call; auto|].
  intros m0. apply all_events_bind; [apply all_events_call; auto|].
  intros m1. apply all_events_bind; [apply all_events_call; auto|].
  intros m2. apply all_events_ret.
Qed.

Lemma elem_of_watch_set self (ms : list (@ApiModule ModuleBody)) (x : string) :
  x ∈ watch_set self ms <->
  (exists m, m ∈ ms /\ x = location_filename m) \/ config self = ConfigStr x.
Proof.
  unfold watch_set.
  assert (Hset : x ∈ (list_to_set (location_filename <$> ms) : gset string)
                 <-> exists m, m ∈ ms /\ x = location_filename m).
  { rewrite elem_of_list_to_set, list_elem_of_fmap.
    split; intros (m & H1 & H2); exists m; split; assumption. }
  destruct (config self) as [|d|path].
  - rewrite Hset. split; [auto | intros [H|H]; [exact H | discriminate]].
  - rewrite Hset. split; [auto | intros [H|H]; [exact H | discriminate]].
  - rewrite elem_of_union, elem_of_singleton, Hset.
    split; (intros [H|H]; [left; exact H | right; congruence]).
Qed.

(** C8: when the engine loads, processes and renders without raising,
    [render] returns a list without duplicates whose members are exactly
    the file names of the modules as the engine's processing and rendering
    left the list, together with the configuration when the session holds
    it as a string (a path), and without it when the session holds a
    dictionary or [None]; when processing and rendering leave the file
    names of the loaded modules as they were, these are the file names of
    the modules loaded. *)
Theorem render_watch_files self cfg w w1 w2 w3
    (ms ms1 ms2 : list (@ApiModule ModuleBody)) :
  pm_load_modules cfg w = (w1, inr ms) ->
  pm_process cfg ms w1 = (w2, inr ms1) ->
  pm_render cfg ms1 w2 = (w3, inr ms2) ->
  exists l,
    render self cfg w
    = (w3, [CallLoadModules; CallProcess; CallRender (renderer_filename cfg)], inr l)
    /\ NoDup l
    /\ (forall x, x ∈ l <->
          (exists m, m ∈ ms2 /\ x = location_filename m)
          \/ config self = ConfigStr x)
    /\ (forall path, config self = ConfigStr path -> path ∈ l)
    /\ ((forall path, config self <> ConfigStr path) ->
        forall x, x ∈ l <-> exists m, m ∈ ms2 /\ x = location_filename m)
    /\ (location_filename <$> ms2 = location_filename <$> ms ->
        (forall x, x ∈ l <->
           (exists m, m ∈ ms /\ x = location_filename m)
           \/ config self = ConfigStr x)
        /\ ((forall path, config self <> ConfigStr path) ->
            forall x, x ∈ l <-> exists m, m ∈ ms /\ x = location_filename m)).
Proof.
  intros H0 H1 H2.
  exists (elements (watch_set self ms2)).
  assert (Hmem : forall x, x ∈ elements (watch_set self ms2) <->
            (exists m, m ∈ ms2 /\ x = location_filename m)
            \/ config self = ConfigStr x).
  { intros x. rewrite elem_of_elements. apply elem_of_watch_set. }
  assert (Hplain : forall (l0 : list (@ApiModule ModuleBody)),
            (forall x, x ∈ elements (watch_set self ms2) <->
               (exists m, m ∈ l0 /\ x = location_filename m)
               \/ config self = ConfigStr x) ->
            (forall path, config self <> ConfigStr path) ->
            forall x, x ∈ elements (watch_set self ms2) <->
                      exists m, m ∈ l0 /\ x = location_filename m).
  { intros l0 Hl0 Hno x. rewrite Hl0. split; [|auto].
    intros [H|H]; [exact H|]. exfalso. exact (Hno x H). }
  split; [|split; [apply NoDup_elements|split; [exact Hmem|split; [|split]]]].
  - unfold render, bind, call, ret. rewrite H0, H1, H2. reflexivity.
  - intros path Hp. apply Hmem. right. exact Hp.
  - apply Hplain, Hmem.
  - intros Hnames.
    assert (Hms : forall x, x ∈ elements (watch_set self ms2) <->
              (exists m, m ∈ ms /\ x = location_filename m)
              \/ config self = ConfigStr x).
    { intros x. rewrite Hmem.
      assert (Hsame : (exists m, m ∈ ms2 /\ x = location_filename m)
                      <-> (exists m, m ∈ ms /\ x = location_filename m)).
      { split; intros (m & Hin & ->).
        - assert (Hx : location_filename m ∈ location_filename <$> ms2)
            by (apply list_elem_of_fmap; eauto).
          rewrite Hnames in Hx. apply list_elem_of_fmap in Hx as (m' & ? & ?). eauto.
        - assert (Hx : location_filename m ∈ location_filename <$> ms)
            by (apply list_elem_of_fmap; eauto).
          rewrite <- Hnames in Hx. apply list_elem_of_fmap in Hx as (m' & ? & ?). eauto. }
      rewrite Hsame. reflexivity. }
    split; [exact Hms | apply Hplain, Hms].
Qed.

Lemma load_no_python_loader self w w1 t cfg (output_file : string) :
  overrides_requested self = true ->
  loaded_config (config self) w = (w1, t, inr cfg) ->
  python_loaders (loaders cfg) = [] ->
  load self w = (w1, t, inl (ValueError "no python loader found"))
  /\ load_and_render self output_file w
     = (w1, t, inl (ValueError "no python loader found")).
Proof.
  intros Hreq Hcfg Hzero.
  assert (Hload : load self w = (w1, t, inl (ValueError "no python loader found"))).
  { unfold load.
    rewrite (bind_inr _ _ w w1 t cfg w1 []
               (inl (ValueError "no python loader found")) Hcfg).
    - rewrite List.app_nil_r. reflexivity.
    - apply bind_inl. unfold _apply_overrides.
      rewrite Hreq, (first_python_loader_none _ Hzero). reflexivity. }
  split; [exact Hload|]. unfold load_and_render. apply bind_inl, Hload.
Qed.

Lemma loaded_config_trace (source : @ConfigSource Dict) w w1 t r :
  loaded_config source w = (w1, t, r) ->
  Forall (fun ev => ev = CallLoadConfig source) t.
Proof.
  intros H. pose proof (loaded_config_events source w) as Hev.
  unfold events in Hev. rewrite H in Hev. exact Hev.
Qed.

(** C4: when an override is requested (a non-empty [modules], [packages]
    or [search_path], or a legacy flag that is not [None]) and the
    configuration loaded holds no Python loader, [load] raises
    [ValueError "no python loader found"] right after the configuration is
    loaded: nothing is initialised and nothing is rendered, and the error
    is also the result of loading and then rendering. *)
Theorem load_without_python_loader self w w1 t cfg (output_file : string) :
  truthy_list (modules self) = true \/ truthy_list (packages self) = true
  \/ truthy_list (search_path self) = true \/ py2 self <> None ->
  loaded_config (config self) w = (w1, t, inr cfg) ->
  python_loaders (loaders cfg) = [] ->
  load self w = (w1, t, inl (ValueError "no python loader found"))
  /\ load_and_render self output_file w
     = (w1, t, inl (ValueError "no python loader found"))
  /\ Forall (fun ev => ev = CallLoadConfig (config self)) t
  /\ Forall (fun ev => is_rendering ev = false) t.
Proof.
  intros Hreq Hcfg Hzero.
  assert (Hreq' : overrides_requested self = true).
  { unfold overrides_requested.
    destruct Hreq as [->|[->|[->|H]]]; rewrite ?orb_true_r; try reflexivity.
    destruct (py2 self); [apply orb_true_r | congruence]. }
  destruct (load_no_python_loader self w w1 t cfg output_file Hreq' Hcfg Hzero)
    as [Hload Hboth].
  pose proof (loaded_config_trace _ _ _ _ _ Hcfg) as Ht.
  split; [exact Hload|]. split; [exact Hboth|]. split; [exact Ht|].
  eapply Forall_impl; [exact Ht|]. intros ev ->. reflexivity.
Qed.

(** *** The entry loop *)

Lemma bind_get {A B} (f : World -> A) (k : A -> Run B) w :
  bind (get f) k w = k (f w) w.
Proof. unfold bind, get. destruct (k (f w) w) as [[w2 t2] r]. reflexivity. Qed.

Lemma bind_emit {B} ev (k : unit -> Run B) w w2 t2 r :
  k tt w = (w2, t2, r) -> bind (emit ev) k w = (w2, ev :: t2, r).
Proof. intros H. unfold bind, emit. rewrite H. reflexivity. Qed.

Lemma bind_call_ok {A B} ev (f : World -> World * (ExtExn + A)) (k : A -> Run B)
    w w1 a w2 t2 r :
  f w = (w1, inr a) -> k a w1 = (w2, t2, r) ->
  bind (call ev f) k w = (w2, ev :: t2, r).
Proof. intros H1 H2. unfold bind, call. rewrite H1, H2. reflexivity. Qed.

Lemma bind_call_error {A B} ev (f : World -> World * (ExtExn + A)) (k : A -> Run B)
    w w1 x :
  f w = (w1, inl x) -> bind (call ev f) k w = (w1, [ev], inl (External x)).
Proof. intros H. unfold bind, call. rewrite H. reflexivity. Qed.

Lemma skipped_false (skip_files : list string) (n file : string) :
  skipped skip_files n file = false -> OsPath.basename file ∉ skip_files.
Proof.
  unfold skipped. intros H. apply orb_false_iff in H as [H _].
  apply bool_decide_eq_false in H. exact H.
Qed.

Lemma load_and_render_events self (output_file : string) :
  all_events
    (fun ev => is_loading ev = true \/ ev = CallLoadModules \/ ev = CallProcess
               \/ ev = CallRender (Some output_file))
    (load_and_render self output_file).
Proof.
  unfold load_and_render. apply all_events_bind.
  - eapply all_events_impl; [|apply load_events]. intros ev H. left. exact H.
  - intros pydocmd. eapply all_events_impl; [|apply render_events].
    intros ev H. right. exact H.
Qed.

Lemma process_file_events (config_ package_dir docs_dir file : string)
    (skip_files : list string) :
  OsPath.basename file ∉ skip_files ->
  all_events (from_unskipped skip_files package_dir docs_dir)
             (process_file config_ package_dir docs_dir file).
Proof.
  intros Hfile. unfold process_file.
  apply all_events_bind; [apply all_events_emit; exact Hfile|]. intros _.
  apply all_events_bind; [apply all_events_emit; split; [exact Hfile|reflexivity]|].
  intros _.
  apply all_events_bind.
  { apply all_events_call. exists file. split; [exact Hfile|reflexivity]. }
  intros _.
  apply all_events_bind.
  { apply all_events_emit. exists file. split; [exact Hfile|reflexivity]. }
  intros _.
  apply all_events_bind; [|intros _; apply all_events_ret].
  eapply all_events_impl; [|apply load_and_render_events].
  intros ev [H | [-> | [-> | ->] ] ]; try exact I.
  - destruct ev; try discriminate; exact I.
  - exists file. split; [exact Hfile|reflexivity].
Qed.

Lemma elem_of_collect (skip_files : list string)
    (walked : list (string * list string * list string)) (f : string) :
  f ∈ collect skip_files walked ->
  exists root ds fs name,
    (root, ds, fs) ∈ walked /\ name ∈ fs /\ (name ∉ skip_files)
    /\ PyStr.endswith name ".py" = true /\ f = OsPath.join2 root name.
Proof.
  unfold collect. intros H.
  apply list_elem_of_In, in_flat_map in H as ([[root ds] fs] & Hw & Hf).
  apply list_elem_of_In, list_elem_of_fmap in Hf as (name & -> & Hname).
  apply list_elem_of_In, filter_In in Hname as [Hin Hok].
  apply andb_true_iff in Hok as [Hpy Hskip].
  apply negb_true_iff, bool_decide_eq_false in Hskip.
  exists root, ds, fs, name.
  split; [apply list_elem_of_In, Hw|]. split; [apply list_elem_of_In, Hin|].
  split; [exact Hskip|]. split; [exact Hpy | reflexivity].
Qed.

Lemma main_events_from_unskipped (config_ package_dir docs_dir : string)
    (skip_files : list string) (src_files : option (list string)) :
  all_events
    (from_unskipped skip_files (normalize_dir package_dir) (normalize_dir docs_dir))
    (main config_ package_dir docs_dir skip_files src_files).
Proof.
  unfold main. apply all_events_bind.
  { destruct (package_name_of _); [apply all_events_ret | apply all_events_raise]. }
  intros n. apply all_events_bind.
  { destruct src_files; [apply all_events_ret | apply all_events_get]. }
  intros l. apply all_events_for_each. intros file _.
  destruct (skipped skip_files n file) eqn:E; [apply all_events_ret|].
  apply process_file_events. eapply skipped_false, E.
Qed.

(** Every event of the loop body run on a file is about that file. *)
Lemma process_file_of_file (config_ package_dir docs_dir file : string) :
  all_events (of_file package_dir docs_dir file)
             (process_file config_ package_dir docs_dir file).
Proof.
  unfold process_file.
  apply all_events_bind; [apply all_events_emit; reflexivity|]. intros _.
  apply all_events_bind; [apply all_events_emit; split; reflexivity|]. intros _.
  apply all_events_bind; [apply all_events_call; reflexivity|]. intros _.
  apply all_events_bind; [apply all_events_emit; reflexivity|]. intros _.
  apply all_events_bind; [|intros _; apply all_events_ret].
  eapply all_events_impl; [|apply load_and_render_events].
  intros ev [H | [-> | [-> | ->] ] ]; try exact I; [|reflexivity].
  destruct ev; try discriminate; exact I.
Qed.

Lemma made_of_blocks_elem (block : string -> World -> list (@Event Dict))
    (fs : list string) (t : list (@Event Dict)) :
  made_of_blocks block fs t ->
  forall ev, ev ∈ t -> exists f w, f ∈ fs /\ ev ∈ block f w.
Proof.
  induction 1 as [|f w fs t _ IH]; intros ev Hev.
  - apply elem_of_nil in Hev. contradiction.
  - apply elem_of_app in Hev as [Hev|Hev].
    + exists f, w. split; [left | exact Hev].
    + destruct (IH ev Hev) as (g & w' & Hg & Hin).
      exists g, w'. split; [right; exact Hg | exact Hin].
Qed.

(** The trace of the loop is made of the traces of the loop body on the
    files that are not passed over, in order, up to the first that fails. *)
Lemma for_each_blocks (config_ package_dir docs_dir n : string)
    (skip_files l : list string) w :
  exists processed,
    processed `prefix_of` List.filter (fun f => negb (skipped skip_files n f)) l
    /\ made_of_blocks
         (fun f w' => events (process_file config_ package_dir docs_dir f : Run unit) w')
         processed
         (events
            (for_each l
               (fun file =>
                  if skipped skip_files n file then ret tt
                  else (process_file config_ package_dir docs_dir file : Run unit)))
            w).
Proof.
  revert w. induction l as [|x l IH]; intros w.
  - exists []. split; [apply prefix_nil | constructor].
  - cbn [for_each List.filter].
    destruct (skipped skip_files n x) eqn:Ex; cbn [negb].
    { unfold events. rewrite bind_ret_l. apply IH. }
    unfold events, bind.
    destruct (process_file config_ package_dir docs_dir x w)
      as [[w1 t1] [e1|[]]] eqn:Ep.
    + exists [x]. split.
      * exists (List.filter (fun f => negb (skipped skip_files n f)) l). reflexivity.
      * cbn. replace t1
          with (events (process_file config_ package_dir docs_dir x : Run unit) w ++ [])
          by (unfold events; rewrite Ep; apply List.app_nil_r).
        apply (blocks_cons
                 (fun f w' =>
                    events (process_file config_ package_dir docs_dir f : Run unit) w')).
        constructor.
    + destruct (IH w1) as (processed & Hpre & Hblocks).
      unfold events in Hblocks.
      destruct (for_each l _ w1) as [[w2 t2] r] eqn:El.
      exists (x :: processed). split; [apply prefix_cons, Hpre|].
      cbn. replace t1
        with (events (process_file config_ package_dir docs_dir x : Run unit) w)
        by (unfold events; rewrite Ep; reflexivity).
      apply (blocks_cons
               (fun f w' =>
                  events (process_file config_ package_dir docs_dir f : Run unit) w')).
      exact Hblocks.
Qed.

(** C5: in every run of the entry loop, with the files listed by the walk
    or given by the caller, the trace is made of the traces of the loop
    body on the files processed, one block per file and nothing else, and
    the files processed are files of the list, in order, none of them with
    a base name in [skip_files].  Every event is about the processed file
    of its block: the file logged and passed to the Module Path Resolver
    is that file, the session built holds its module and the output path
    rendered to is its output path.  So a file whose base name is in
    [skip_files] is not processed: it is never logged and never passed to
    the resolver, and no session or rendering in the trace is run on it.
    The walk itself collects no file whose name is in [skip_files]. *)
Theorem main_skip_list (config_ package_dir docs_dir : string)
    (skip_files : list string) (src_files : option (list string)) w :
  let pd := normalize_dir package_dir in
  let dd := normalize_dir docs_dir in
  let t := events (main config_ package_dir docs_dir skip_files src_files) w in
  let listed :=
    match src_files with
    | None => collect skip_files (os_walk pd w)
    | Some l => l
    end in
  (exists n processed,
      package_name_of pd = Some n
      /\ processed `prefix_of` List.filter (fun f => negb (skipped skip_files n f)) listed
      /\ Forall (fun f => (OsPath.basename f ∉ skip_files) /\ f ∈ listed) processed
      /\ made_of_blocks (fun f w' => events (process_file config_ pd dd f : Run unit) w')
           processed t
      /\ (forall ev, ev ∈ t ->
            exists f w', f ∈ processed
                         /\ ev ∈ events (process_file config_ pd dd f : Run unit) w'
                         /\ of_file pd dd f ev)
      /\ (forall g, OsPath.basename g ∈ skip_files ->
            (g ∉ processed) /\ (LogInfo g ∉ t)
            /\ (forall root, CallFile2module g root ∉ t)))
  /\ Forall (from_unskipped skip_files pd dd) t
  /\ (forall f, f ∈ collect skip_files (os_walk pd w) ->
        exists root ds fs name,
          (root, ds, fs) ∈ os_walk pd w
          /\ name ∈ fs /\ (name ∉ skip_files)
          /\ PyStr.endswith name ".py" = true /\ f = OsPath.join2 root name).
Proof.
  intros pd dd t listed.
  split; [|split; [apply main_events_from_unskipped | intros f; apply elem_of_collect]].
  destruct (PyStrFacts.endswith_inv _ _ (normalize_dir_endswith package_dir))
    as [s Hs].
  destruct (last_split_is_Some "/" s) as [n Hn].
  assert (Hname : package_name_of pd = Some n).
  { unfold pd. rewrite Hs, package_name_of_snoc_sep. exact Hn. }
  destruct (for_each_blocks config_ pd dd n skip_files listed w)
    as (processed & Hpre & Hblocks).
  assert (Ht : t = events
                 (for_each listed
                    (fun file =>
                       if skipped skip_files n file then ret tt
                       else (process_file config_ pd dd file : Run unit))) w).
  { unfold t, events, main. fold pd dd. rewrite Hname, bind_ret_l.
    unfold listed. destruct src_files; [rewrite bind_ret_l | rewrite bind_get];
      reflexivity. }
  rewrite <- Ht in Hblocks.
  assert (Hproc : forall f, f ∈ processed ->
            (OsPath.basename f ∉ skip_files) /\ f ∈ listed).
  { intros f Hf. destruct Hpre as [k Hk].
    assert (Hin : In f (List.filter (fun f => negb (skipped skip_files n f)) listed)).
    { rewrite Hk. apply in_or_app. left. apply list_elem_of_In, Hf. }
    apply filter_In in Hin as [Hin Hok]. apply negb_true_iff in Hok.
    split; [eapply skipped_false, Hok | apply list_elem_of_In, Hin]. }
  assert (Hev : forall ev, ev ∈ t ->
            exists f w', f ∈ processed
                         /\ ev ∈ events (process_file config_ pd dd f : Run unit) w'
                         /\ of_file pd dd f ev).
  { intros ev Hin.
    destruct (made_of_blocks_elem _ _ _ Hblocks ev Hin) as (f & w' & Hf & Hin').
    exists f, w'. split; [exact Hf|]. split; [exact Hin'|].
    pose proof (process_file_of_file config_ pd dd f w') as Hall.
    rewrite Forall_forall in Hall. apply Hall, Hin'. }
  exists n, processed. split; [exact Hname|]. split; [exact Hpre|].
  split; [apply Forall_forall, Hproc|]. split; [exact Hblocks|].
  split; [exact Hev|].
  intros g Hg. split; [|split].
  - intros Hin. apply (Hproc g Hin). exact Hg.
  - intros Hin. destruct (Hev _ Hin) as (f & w' & Hf & _ & Hof).
    cbn in Hof. subst f. apply (Hproc g Hf). exact Hg.
  - intros root Hin. destruct (Hev _ Hin) as (f & w' & Hf & _ & Hof).
    cbn in Hof. destruct Hof as [-> _]. apply (Hproc f Hf). exact Hg.
Qed.

(** The session the loop builds for a file (lines 199 to 218). *)
Lemma process_file_session (config_ package_dir docs_dir file : string) :
  all_events
    (fun ev => forall s, ev = NewSession s ->
       config s = ConfigStr config_ /\ py2 s = Some false
       /\ packages s = Some [] /\ overrides_requested s = true)
    (process_file config_ package_dir docs_dir file).
Proof.
  unfold process_file.
  apply all_events_bind; [apply all_events_emit; discriminate|]. intros _.
  apply all_events_bind; [apply all_events_emit; discriminate|]. intros _.
  apply all_events_bind; [apply all_events_call; discriminate|]. intros _.
  apply all_events_bind.
  { apply all_events_emit. intros s [= <-]. repeat split; reflexivity. }
  intros _.
  apply all_events_bind; [|intros _; apply all_events_ret].
  eapply all_events_impl; [|apply load_and_render_events].
  intros ev [H | [-> | [-> | ->] ] ] s Hs; subst; discriminate.
Qed.

(** A file that is not passed over stops the run when the configuration
    loaded has no Python loader. *)
Lemma process_file_no_python_loader (config_ package_dir docs_dir file : string) w :
  (forall w0 w1 t cfg,
      loaded_config (ConfigStr config_) w0 = (w1, t, inr cfg) ->
      python_loaders (loaders cfg) = []) ->
  exists w' t e,
    process_file config_ package_dir docs_dir file w = (w', t, inl e)
    /\ Forall (fun ev => is_rendering ev = false) t
    /\ Forall (fun ev => forall g root, ev = CallFile2module g root -> g = file) t
    /\ (e = ValueError "no python loader found" \/ exists x, e = External x)
    /\ (forall w1 w2 t1 cfg,
          os_makedirs (OsPath.dirname (output_path package_dir docs_dir file)) w
          = (w1, inr tt) ->
          loaded_config (ConfigStr config_) w1 = (w2, t1, inr cfg) ->
          e = ValueError "no python loader found" /\ w' = w2).
Proof.
  intros Hzero. unfold process_file.
  set (out := output_path package_dir docs_dir file).
  set (s := mkRenderSession _ _ _ _ _ _).
  assert (Hreq : overrides_requested s = true) by reflexivity.
  assert (Hload_ev : forall w1 w2 t1 r,
             loaded_config (ConfigStr config_) w1 = (w2, t1, r) ->
             Forall (fun ev : @Event Dict => is_rendering ev = false) t1
             /\ Forall (fun ev : @Event Dict =>
                          forall g root, ev = CallFile2module g root -> g = file) t1).
  { intros w1 w2 t1 r H. pose proof (loaded_config_trace _ _ _ _ _ H) as Ht.
    split; (eapply Forall_impl; [exact Ht|]); intros ev ->;
      [reflexivity | discriminate]. }
  destruct (os_makedirs (OsPath.dirname out) w) as [w1 [x|[]]] eqn:Hmk.
  - exists w1, [LogInfo file; CallFile2module file package_dir;
                CallMakedirs (OsPath.dirname out)], (External x).
    split; [apply bind_emit, bind_emit, bind_call_error, Hmk|].
    split; [repeat constructor|].
    split; [repeat constructor; intros g root; congruence|].
    split; [right; exists x; reflexivity|].
    intros w1' w2 t1 cfg H. discriminate.
  - destruct (loaded_config (ConfigStr config_) w1) as [[w2 t1] [e|cfg]] eqn:Hl.
    + exists w2, ([LogInfo file; CallFile2module file package_dir;
                   CallMakedirs (OsPath.dirname out); NewSession s] ++ t1), e.
      destruct (Hload_ev _ _ _ _ Hl) as [Hr Hf].
      split.
      { apply bind_emit, bind_emit. eapply bind_call_ok; [exact Hmk|].
        apply bind_emit. apply bind_inl. unfold load_and_render.
        apply bind_inl. unfold load. apply bind_inl. exact Hl. }
      split; [apply Forall_app; split; [repeat constructor | exact Hr]|].
      split.
      { apply Forall_app. split; [|exact Hf].
        repeat constructor; intros g root; congruence. }
      split; [right; eapply loaded_config_error, Hl|].
      intros w1' w2' t1' cfg [= <-] H. rewrite Hl in H. discriminate.
    + exists w2, ([LogInfo file; CallFile2module file package_dir;
                   CallMakedirs (OsPath.dirname out); NewSession s] ++ t1),
        (ValueError "no python loader found").
      destruct (Hload_ev _ _ _ _ Hl) as [Hr Hf].
      destruct (load_no_python_loader s w1 w2 t1 cfg out Hreq Hl (Hzero _ _ _ _ Hl))
        as [_ Hboth].
      split.
      { apply bind_emit, bind_emit. eapply bind_call_ok; [exact Hmk|].
        apply bind_emit. apply bind_inl. exact Hboth. }
      split; [apply Forall_app; split; [repeat constructor | exact Hr]|].
      split.
      { apply Forall_app. split; [|exact Hf].
        repeat constructor; intros g root; congruence. }
      split; [left; reflexivity|].
      intros w1' w2' t1' cfg' [= <-] H. rewrite Hl in H.
      injection H as <- _ _. split; reflexivity.
Qed.

(** C9: every session of the entry loop holds the configuration path, the
    legacy flag [False] and the empty package list, so its overrides are
    always requested.  When the configuration loaded has no Python loader,
    the first file of the list that is not passed over stops the run with
    an exception: no module is loaded, processed or rendered, no later
    file is resolved, and the exception is
    [ValueError "no python loader found"] unless making the output
    directory or loading the configuration raised before. *)
Theorem main_without_python_loader (config_ package_dir docs_dir : string)
    (skip_files : list string) (src_files : option (list string)) w :
  Forall (fun ev => forall s, ev = NewSession s ->
            config s = ConfigStr config_ /\ py2 s = Some false
            /\ packages s = Some [] /\ overrides_requested s = true)
         (events (main config_ package_dir docs_dir skip_files src_files) w)
  /\ (forall n pre file rest,
        package_name_of (normalize_dir package_dir) = Some n ->
        match src_files with
        | None => collect skip_files (os_walk (normalize_dir package_dir) w)
        | Some l => l
        end = pre ++ file :: rest ->
        Forall (fun g => skipped skip_files n g = true) pre ->
        skipped skip_files n file = false ->
        (forall w0 w1 t cfg,
            loaded_config (ConfigStr config_) w0 = (w1, t, inr cfg) ->
            python_loaders (loaders cfg) = []) ->
        exists w' t e,
          main config_ package_dir docs_dir skip_files src_files w = (w', t, inl e)
          /\ Forall (fun ev => is_rendering ev = false) t
          /\ Forall (fun ev => forall g root, ev = CallFile2module g root -> g = file) t
          /\ (e = ValueError "no python loader found" \/ exists x, e = External x)
          /\ (forall w1 w2 t1 cfg,
                os_makedirs
                  (OsPath.dirname
                     (output_path (normalize_dir package_dir)
                                  (normalize_dir docs_dir) file)) w
                = (w1, inr tt) ->
                loaded_config (ConfigStr config_) w1 = (w2, t1, inr cfg) ->
                e = ValueError "no python loader found" /\ w' = w2)).
Proof.
  split.
  - revert w. change (all_events
      (fun ev : @Event Dict => forall s, ev = NewSession s ->
         config s = ConfigStr config_ /\ py2 s = Some false
         /\ packages s = Some [] /\ overrides_requested s = true)
      (main config_ package_dir docs_dir skip_files src_files)).
    unfold main. apply all_events_bind.
    { destruct (package_name_of _); [apply all_events_ret | apply all_events_raise]. }
    intros n. apply all_events_bind.
    { destruct src_files; [apply all_events_ret | apply all_events_get]. }
    intros l. apply all_events_for_each. intros file _.
    destruct (skipped skip_files n file); [apply all_events_ret|].
    apply process_file_session.
  - intros n pre file rest Hn Hsrc Hpre Hfile Hzero.
    destruct (process_file_no_python_loader config_ (normalize_dir package_dir)
                (normalize_dir docs_dir) file w Hzero)
      as (w' & t & e & Hrun & Hrest).
    exists w', t, e. split; [|exact Hrest].
    unfold main. rewrite Hn, bind_ret_l.
    assert (Hloop : forall l, l = pre ++ file :: rest ->
              for_each l
                (fun file0 =>
                   if skipped skip_files n file0 then ret tt
                   else process_file config_ (normalize_dir package_dir)
                          (normalize_dir docs_dir) file0) w
              = (w', t, inl e)).
    { intros l ->. rewrite for_each_passed_over.
      - simpl. apply bind_inl. rewrite Hfile. exact Hrun.
      - eapply Forall_impl; [exact Hpre|]. intros g Hg. simpl in Hg.
        rewrite Hg. reflexivity. }
    destruct src_files as [l|].
    + rewrite bind_ret_l. apply Hloop, Hsrc.
    + rewrite bind_get. apply Hloop, Hsrc.
Qed.

End Runs.

(** * Runs on the small engine *)

Section ToyRuns.
Import Toy.

(** The end-to-end scenario of the specification: a package with [a.py]
    and [__init__.py] gives one output file, for [a.py]. *)
Example main_end_to_end :
  main (X := Toy.externals python_yaml [("", [], ["a.py"; "__init__.py"])])
       "cfg.yml" "pkg" "docs/pkg" skip_default None []
  = (["docs/pkg/a.md"],
     [LogInfo "pkg/a.py"; CallFile2module "pkg/a.py" "pkg/";
      CallMakedirs "docs/pkg";
      NewSession (mkRenderSession (ConfigStr "cfg.yml") (Some true)
                    (Some ["pkg/"]) (Some ["a"]) (Some []) (Some false));
      CallLoadConfig (ConfigStr "cfg.yml"); CallInit "/work";
      CallLoadModules; CallProcess; CallRender (Some "docs/pkg/a.md")],
     inr tt).
Proof. vm_compute. reflexivity. Qed.

Lemma load_without_python_loader_witness :
  load (X := Toy.externals other_yaml [])
       (Toy.session (ConfigStr "cfg.yml") None None None (Some false)) []
  = ([], [CallLoadConfig (ConfigStr "cfg.yml")],
     inl (ValueError "no python loader found"))
  /\ load_and_render (X := Toy.externals other_yaml [])
       (Toy.session (ConfigStr "cfg.yml") None None None (Some false)) "out.md" []
     = ([], [CallLoadConfig (ConfigStr "cfg.yml")],
        inl (ValueError "no python loader found"))
  /\ Forall (fun ev => ev = CallLoadConfig (ConfigStr "cfg.yml"))
            [@CallLoadConfig unit (ConfigStr "cfg.yml")]
  /\ Forall (fun ev => is_rendering ev = false)
            [@CallLoadConfig unit (ConfigStr "cfg.yml")].
Proof.
  apply (load_without_python_loader (X := Toy.externals other_yaml [])
           (Toy.session (ConfigStr "cfg.yml") None None None (Some false))
           [] [] [CallLoadConfig (ConfigStr "cfg.yml")]
           (Toy.engine_config other_yaml) "out.md").
  - right. right. right. discriminate.
  - reflexivity.
  - reflexivity.
Defined.

Lemma render_watch_files_witness :
  exists l,
    render (X := Toy.externals python_yaml [])
      (Toy.session (ConfigStr "cfg.yml") None None None None)
      (Toy.engine_config
         [IsPythonLoader (Toy.py_loader (Some ["a"; "a"; "b"]) None None true)]) []
    = ([], [CallLoadModules; CallProcess; CallRender None], inr l)
    /\ NoDup l
    /\ "a.py" ∈ l /\ "b.py" ∈ l /\ "cfg.yml" ∈ l
    /\ (forall x, x ∈ l -> x = "a.py" \/ x = "b.py" \/ x = "cfg.yml").
Proof.
  destruct (render_watch_files (X := Toy.externals python_yaml [])
              (Toy.session (ConfigStr "cfg.yml") None None None None)
              (Toy.engine_config
                 [IsPythonLoader (Toy.py_loader (Some ["a"; "a"; "b"]) None None true)])
              [] [] [] []
              (Toy.api_module <$> ["a"; "a"; "b"])
              (Toy.api_module <$> ["a"; "a"; "b"])
              (Toy.api_module <$> ["a"; "a"; "b"])
              eq_refl eq_refl eq_refl)
    as (l & Hrun & Hnodup & Hmem & Hcfg & _).
  exists l. split; [exact Hrun|]. split; [exact Hnodup|].
  split; [|split; [|split]].
  - apply Hmem. left. exists (Toy.api_module "a"). split; [left | reflexivity].
  - apply Hmem. left. exists (Toy.api_module "b").
    split; [right; right; left | reflexivity].
  - apply Hcfg. reflexivity.
  - intros x Hx. apply Hmem in Hx as [(m & Hm & ->) | Hc].
    + cbn in Hm. repeat setoid_rewrite elem_of_cons in Hm.
      setoid_rewrite elem_of_nil in Hm.
      destruct Hm as [-> | [-> | [-> | [] ] ] ]; cbn; auto.
    + injection Hc as <-. auto.
Defined.

(** C8, the code at a failing input: the loaders discover the modules of
    [a.py] and [empty.py], the engine's processing drops the module of
    [empty.py] from the list, and [render] reads the file names from the
    list as processing left it: the list returned is ["a.py"], and the file
    of the discovered module [empty] is not in it. *)
Theorem render_watch_files_dropped_module :
  let cfg :=
    Toy.engine_config
      [IsPythonLoader (Toy.py_loader (Some ["a"; "empty"]) None None true)] in
  let self := Toy.session ConfigNone None None None None in
  let discovered_ := [Toy.api_module "a"; Toy.api_module "empty"] in
  pm_load_modules (Externals := Toy.filtering_externals "empty.py" python_yaml []) cfg []
  = ([], inr discovered_)
  /\ render (X := Toy.filtering_externals "empty.py" python_yaml []) self cfg []
     = ([], [CallLoadModules; CallProcess; CallRender None], inr ["a.py"])
  /\ (exists m, m ∈ discovered_ /\ location_filename m = "empty.py")
  /\ ~ (forall l,
          outcome (render (X := Toy.filtering_externals "empty.py" python_yaml [])
                     self cfg) [] = inr l ->
          forall x, x ∈ l <-> exists m, m ∈ discovered_ /\ x = location_filename m).
Proof.
  intros cfg self discovered_.
  assert (Hrun : render (X := Toy.filtering_externals "empty.py" python_yaml []) self cfg []
                 = ([], [CallLoadModules; CallProcess; CallRender None], inr ["a.py"])).
  { vm_compute. reflexivity. }
  split; [reflexivity|]. split; [exact Hrun|]. split.
  - exists (Toy.api_module "empty"). split; [right; left | reflexivity].
  - intros H. specialize (H ["a.py"]). unfold outcome in H. rewrite Hrun in H.
    specialize (H eq_refl "empty.py").
    assert (Hin : "empty.py" ∈ ["a.py"]).
    { apply H. exists (Toy.api_module "empty"). split; [right; left | reflexivity]. }
    apply elem_of_cons in Hin as [Hin | Hin]; [discriminate|].
    apply elem_of_nil in Hin. exact Hin.
Qed.

Lemma main_without_python_loader_witness :
  exists w' t e,
    main (X := Toy.externals other_yaml []) "cfg.yml" "pkg" "docs" skip_default
         (Some ["pkg/__init__.py"; "pkg/a.py"; "pkg/b.py"]) []
    = (w', t, inl e)
    /\ Forall (fun ev => is_rendering ev = false) t
    /\ Forall (fun ev => forall g root, ev = CallFile2module g root -> g = "pkg/a.py") t
    /\ (e = ValueError "no python loader found" \/ exists x, e = External x)
    /\ (forall w1 w2 t1 cfg,
          os_makedirs (Externals := Toy.externals other_yaml [])
            (OsPath.dirname
               (output_path (normalize_dir "pkg") (normalize_dir "docs") "pkg/a.py")) []
          = (w1, inr tt) ->
          loaded_config (X := Toy.externals other_yaml []) (ConfigStr "cfg.yml") w1
          = (w2, t1, inr cfg) ->
          e = ValueError "no python loader found" /\ w' = w2).
Proof.
  apply (proj2 (main_without_python_loader (X := Toy.externals other_yaml [])
                  "cfg.yml" "pkg" "docs" skip_default
                  (Some ["pkg/__init__.py"; "pkg/a.py"; "pkg/b.py"]) [])
           "pkg" ["pkg/__init__.py"] "pkg/a.py" ["pkg/b.py"]).
  - reflexivity.
  - reflexivity.
  - repeat constructor.
  - reflexivity.
  - intros w0 w1 t cfg H. vm_compute in H. injection H as _ _ <-. reflexivity.
Defined.

(** C2, the code at a failing input: the package directory "pkg/" occurs
    again inside the name of the sub-directory "subpkg/", and [replace]
    rewrites that occurrence too, so the file is rendered to
    "docs/subdocs/a.md" and not to "docs/subpkg/a.md"; in the same way a
    ".py" inside the name becomes ".md". *)
Theorem output_path_replaces_every_occurrence :
  let package_dir := normalize_dir "pkg" in
  let docs_dir := normalize_dir "docs" in
  let file := "pkg/subpkg/a.py" in
  PyStr.startswith file package_dir = true
  /\ PyStr.endswith file ".py" = true
  /\ skipped skip_default "pkg" file = false
  /\ output_path package_dir docs_dir file = "docs/subdocs/a.md"
  /\ spec_output_path package_dir docs_dir file = "docs/subpkg/a.md"
  /\ final_world
       (main (X := Toy.externals python_yaml
                     [("", ["subpkg"], ["__init__.py"]); ("subpkg", [], ["a.py"])])
             "cfg.yml" "pkg" "docs" skip_default None) []
     = ["docs/subdocs/a.md"]
  /\ output_path package_dir docs_dir "pkg/a.py.py" = "docs/a.md.md"
  /\ spec_output_path package_dir docs_dir "pkg/a.py.py" = "docs/a.py.md".
Proof. vm_compute. repeat split; reflexivity. Qed.

End ToyRuns.

(** * More on the Module Path Resolver and on the output path *)

Section PathsMore.
Import PyStr PyStrFacts.

Lemma split_no_sep (c : ascii) (s : string) :
  has_char c s = false -> split c s = [s].
Proof.
  induction s as [|a s IH]; intros H; [reflexivity|].
  simpl in H. apply orb_false_iff in H as [Ha Hs].
  simpl. rewrite Ha, (IH Hs). reflexivity.
Qed.

Lemma concat_split_no_sep (c : ascii) (parts : list string) :
  Forall (fun p => has_char c p = false) parts ->
  concat (split c <$> parts) = parts.
Proof.
  induction 1 as [|p ps Hp _ IH]; [reflexivity|].
  cbn [fmap list_fmap concat]. rewrite (split_no_sep c p Hp).
  change (list_fmap _ _ (split c) ps) with (split c <$> ps).
  rewrite IH. reflexivity.
Qed.

Lemma split_join_no_sep (c : ascii) (parts : list string) :
  parts <> [] ->
  Forall (fun p => has_char c p = false) parts ->
  split c (join (String c "") parts) = parts.
Proof.
  intros Hne H. rewrite split_join by exact Hne. apply concat_split_no_sep, H.
Qed.

Lemma filter_nonempty_all (parts : list string) :
  Forall (fun p => p <> "") parts ->
  filter (fun part => nonempty part = true) parts = parts.
Proof.
  induction 1 as [|p ps Hp _ IH]; [reflexivity|].
  rewrite filter_cons_True by (apply nonempty_true, Hp). rewrite IH. reflexivity.
Qed.

Lemma path_segments_join (parts : list string) :
  Forall (fun p => p <> "" /\ has_char "/" p = false) parts ->
  path_segments (join "/" parts) = parts.
Proof.
  intros H. unfold path_segments.
  destruct parts as [|p ps]; [reflexivity|].
  rewrite split_join_no_sep.
  - apply filter_nonempty_all. eapply Forall_impl; [exact H|]. intros q [Hq _]. exact Hq.
  - discriminate.
  - eapply Forall_impl; [exact H|]. intros q [_ Hq]. exact Hq.
Qed.

(** X1: a file that lies under the root along the directories and the
    module name [parts] (each a non-empty name without a separator) gets
    the module name made of [parts] joined with dots. *)
Theorem file2module_of_components (root : string) (parts : list string) :
  Forall (fun p => p <> "" /\ has_char "/" p = false) parts ->
  file2module (root +:+ join "/" parts +:+ ".py") root = join "." parts.
Proof.
  intros H. unfold file2module.
  rewrite removeprefix_app, removesuffix_app by discriminate.
  change (filter _ (split "/" (join "/" parts))) with (path_segments (join "/" parts)).
  rewrite (path_segments_join parts H). reflexivity.
Qed.

Lemma file2module_of_components_witness :
  file2module ("/home/hugo/" +:+ join "/" ["erptools"; "io"; "reader"] +:+ ".py")
              "/home/hugo/"
  = join "." ["erptools"; "io"; "reader"].
Proof.
  apply file2module_of_components.
  repeat constructor; discriminate.
Defined.

(** X3: when the names in [parts] hold no dot either, splitting the module
    name at the dots gives [parts] back. *)
Theorem file2module_read_back (root : string) (parts : list string) :
  parts <> [] ->
  Forall (fun p => p <> "" /\ has_char "/" p = false /\ has_char "." p = false) parts ->
  split "." (file2module (root +:+ join "/" parts +:+ ".py") root) = parts.
Proof.
  intros Hne H. unfold file2module.
  rewrite removeprefix_app, removesuffix_app by discriminate.
  change (filter _ (split "/" (join "/" parts))) with (path_segments (join "/" parts)).
  rewrite path_segments_join.
  - apply split_join_no_sep; [exact Hne|].
    eapply Forall_impl; [exact H|]. intros q (_ & _ & Hq). exact Hq.
  - eapply Forall_impl; [exact H|]. intros q (Hq1 & Hq2 & _). split; assumption.
Qed.

Lemma file2module_read_back_witness :
  split "." (file2module ("src/" +:+ join "/" ["pkg"; "sub"; "mod"] +:+ ".py") "src/")
  = ["pkg"; "sub"; "mod"].
Proof.
  apply file2module_read_back; [discriminate|].
  repeat constructor; discriminate.
Defined.

Lemma endswith_cons_other (a : ascii) (s suf : string) :
  has_char a suf = false -> endswith (String a s) suf = endswith s suf.
Proof.
  intros H. cbn [endswith].
  destruct (String.eqb (String a s) suf) eqn:E; [|reflexivity].
  apply String.eqb_eq in E. subst suf. simpl in H.
  rewrite Ascii.eqb_refl in H. discriminate.
Qed.

Lemma removesuffix_cons_other (a : ascii) (s suf : string) :
  has_char a suf = false ->
  removesuffix (String a s) suf = String a (removesuffix s suf).
Proof.
  intros H. unfold removesuffix. rewrite (endswith_cons_other a s suf H).
  destruct (nonempty suf && endswith s suf) eqn:E; [|reflexivity].
  apply andb_true_iff in E as [_ E]. apply endswith_inv in E as [m ->].
  rewrite take_app.
  change (String a (m +:+ suf)) with (String a m +:+ suf).
  rewrite take_app. reflexivity.
Qed.

Lemma path_segments_leading_sep (s : string) :
  path_segments (String "/" s) = path_segments s.
Proof. unfold path_segments. rewrite split_cons_sep. reflexivity. Qed.

(** X2: the root may be given with or without its final separator: for a
    file under [root ++ "/"] both give the same module name (the case of
    the docstring, whose root has no final separator). *)
Theorem file2module_root_final_separator (root m : string) :
  file2module (root +:+ "/" +:+ m) root = file2module (root +:+ "/" +:+ m) (root +:+ "/").
Proof.
  unfold file2module.
  rewrite removeprefix_app.
  rewrite <- (app_assoc root "/" m), removeprefix_app.
  change ("/" +:+ m) with (String "/" m).
  rewrite removesuffix_cons_other by reflexivity.
  change (filter _ (split "/" (String "/" (removesuffix m ".py"))))
    with (path_segments (String "/" (removesuffix m ".py"))).
  rewrite path_segments_leading_sep. reflexivity.
Qed.

(** *** [str.replace] where the pattern occurs once *)

Lemma replace_go_skip (old new p rest : string) :
  replace_go old new (String.length p) (p +:+ rest) = replace_go old new O rest.
Proof.
  induction p as [|a p IH]; [destruct rest; reflexivity|].
  rewrite app_cons. simpl. exact IH.
Qed.

Lemma replace_go_match (b : ascii) (old' new rest : string) :
  replace_go (String b old') new O (String b old' +:+ rest)
  = new +:+ replace_go (String b old') new O rest.
Proof.
  rewrite app_cons. cbn [replace_go].
  change (String b (old' +:+ rest)) with (String b old' +:+ rest).
  rewrite startswith_app. f_equal.
  cbn [String.length]. rewrite Nat.sub_succ, Nat.sub_0_r.
  apply replace_go_skip.
Qed.

Lemma replace_go_absent (old new s : string) :
  contains s old = false -> replace_go old new O s = s.
Proof.
  induction s as [|a s IH]; intros H; [reflexivity|].
  cbn [contains] in H. apply orb_false_iff in H as [H1 H2].
  cbn [replace_go]. rewrite H1, (IH H2). reflexivity.
Qed.

Lemma replace_prefix_once (old new rest : string) :
  old <> "" -> contains rest old = false ->
  replace (old +:+ rest) old new = new +:+ rest.
Proof.
  intros Hne H. destruct old as [|b old']; [congruence|].
  unfold replace. rewrite replace_go_match, (replace_go_absent _ _ _ H). reflexivity.
Qed.

Lemma startswith_py_app (t : string) :
  t <> "" -> startswith t ".py" = false -> startswith (t +:+ ".py") ".py" = false.
Proof.
  intros Hne H. destruct t as [|a t]; [congruence|].
  rewrite app_cons. cbn [startswith] in *.
  destruct (Ascii.eqb a "."); [|reflexivity]. simpl in *.
  destruct t as [|b t]; [reflexivity|].
  rewrite app_cons. cbn [startswith] in *.
  destruct (Ascii.eqb b "p"); [|reflexivity]. simpl in *.
  destruct t as [|c t]; [reflexivity|].
  rewrite app_cons. cbn [startswith] in *.
  destruct (Ascii.eqb c "y"); [|reflexivity]. simpl in *.
  destruct t; discriminate.
Qed.

Lemma replace_py_suffix_once (t : string) :
  contains t ".py" = false -> replace (t +:+ ".py") ".py" ".md" = t +:+ ".md".
Proof.
  unfold replace. induction t as [|a t IH]; intros H; [reflexivity|].
  cbn [contains] in H. apply orb_false_iff in H as [H1 H2].
  pose proof (startswith_py_app (String a t) ltac:(discriminate) H1) as Hs.
  rewrite app_cons in *. cbn [replace_go]. rewrite Hs, (IH H2). reflexivity.
Qed.

(** X4: when the package directory occurs in the file only as its prefix
    and ".py" occurs only as its suffix (also after the docs directory has
    taken the prefix's place), the output path is the docs directory, the
    path below the package directory, and ".md": the path the two
    removals of [file2module] would give. *)
Theorem output_path_mirrors (package_dir docs_dir m : string) :
  package_dir <> "" ->
  contains (m +:+ ".py") package_dir = false ->
  contains (docs_dir +:+ m) ".py" = false ->
  output_path package_dir docs_dir (package_dir +:+ m +:+ ".py") = docs_dir +:+ m +:+ ".md"
  /\ spec_output_path package_dir docs_dir (package_dir +:+ m +:+ ".py")
     = docs_dir +:+ m +:+ ".md".
Proof.
  intros Hne H1 H2. split.
  - unfold output_path. rewrite (replace_prefix_once _ _ _ Hne H1).
    rewrite <- (app_assoc docs_dir m ".py"), (replace_py_suffix_once _ H2).
    apply app_assoc.
  - unfold spec_output_path.
    rewrite removeprefix_app, removesuffix_app by discriminate. reflexivity.
Qed.

Lemma output_path_mirrors_witness :
  output_path "erptools/" "./docs/erptools/" ("erptools/" +:+ "io/reader" +:+ ".py")
  = "./docs/erptools/" +:+ "io/reader" +:+ ".md"
  /\ spec_output_path "erptools/" "./docs/erptools/" ("erptools/" +:+ "io/reader" +:+ ".py")
     = "./docs/erptools/" +:+ "io/reader" +:+ ".md".
Proof.
  apply output_path_mirrors; [discriminate | reflexivity | reflexivity].
Defined.

End PathsMore.

(** * More on the overrides *)

Section OverridesMore.
Context {Dict OtherLoader LoaderRest EngineRest ExtExn : Type}.

Implicit Types (self : @RenderSession Dict).
Implicit Types (cfg : @PydocMarkdown OtherLoader LoaderRest EngineRest).
Implicit Types (ls : list (@Loader OtherLoader LoaderRest)).
Implicit Types (loader : @PythonLoader LoaderRest).

Local Abbreviation overrides :=
  (@_apply_overrides Dict OtherLoader LoaderRest EngineRest ExtExn).

Lemma override_loader_idempotent self loader :
  override_loader self (override_loader self loader) = override_loader self loader.
Proof.
  unfold override_loader. destruct loader as [m p s f r].
  destruct (truthy_list (modules self)), (truthy_list (packages self)),
    (truthy_list (search_path self)), (py2 self); reflexivity.
Qed.

Lemma python_loaders_insert ls i loader loader' :
  first_python_loader ls = Some (i, loader) ->
  length (python_loaders (<[i := IsPythonLoader loader']> ls))
  = length (python_loaders ls).
Proof.
  revert i. induction ls as [|[l|o] ls IH]; intros i H; simpl in H.
  - discriminate.
  - injection H as <- <-. reflexivity.
  - destruct (first_python_loader ls) as [[j l]|] eqn:E; [|discriminate].
    injection H as <- <-. simpl. apply (IH j eq_refl).
Qed.

(** X5: applying the overrides of a session twice is the same as applying
    them once: on the configuration they return, they return it again. *)
Theorem apply_overrides_idempotent self cfg cfg' :
  _apply_overrides (ExtExn := ExtExn) self cfg = inr cfg' ->
  _apply_overrides (ExtExn := ExtExn) self cfg' = inr cfg'.
Proof.
  unfold _apply_overrides.
  destruct (overrides_requested self); [|intros [= <-]; reflexivity].
  destruct (first_python_loader (loaders cfg)) as [[i loader]|] eqn:Hfind;
    [|discriminate].
  intros [= <-]. cbn [loaders set_loaders].
  rewrite (first_python_loader_insert _ _ _ (override_loader self loader) Hfind).
  rewrite override_loader_idempotent, list_insert_insert_eq. reflexivity.
Qed.

(** X6: the overrides never add, drop or move a loader and never touch
    the renderer's file name, the unknown fields or the rest of the
    configuration: on success the loader list keeps its length and its
    number of Python loaders, and every other field of the configuration
    is as before. *)
Theorem apply_overrides_frame self cfg cfg' :
  overrides self cfg = inr cfg' ->
  length (loaders cfg') = length (loaders cfg)
  /\ length (python_loaders (loaders cfg')) = length (python_loaders (loaders cfg))
  /\ renderer_filename cfg' = renderer_filename cfg
  /\ unknown_fields cfg' = unknown_fields cfg
  /\ engine_rest cfg' = engine_rest cfg.
Proof.
  unfold _apply_overrides.
  destruct (overrides_requested self); [|intros [= <-]; repeat split; reflexivity].
  destruct (first_python_loader (loaders cfg)) as [[i loader]|] eqn:Hfind;
    [|discriminate].
  intros [= <-]. cbn [loaders set_loaders renderer_filename unknown_fields engine_rest].
  split; [apply length_insert|].
  split; [apply python_loaders_insert with loader, Hfind|].
  repeat split; reflexivity.
Qed.

Lemma first_python_loader_none_inv ls :
  first_python_loader ls = None -> python_loaders ls = [].
Proof.
  induction ls as [|[l|o] ls IH]; simpl; intros H; [reflexivity|discriminate|].
  destruct (first_python_loader ls) as [[j l]|]; [discriminate|]. apply IH. reflexivity.
Qed.

Lemma apply_overrides_inl self cfg e :
  overrides self cfg = inl e ->
  e = ValueError "no python loader found"
  /\ overrides_requested self = true
  /\ python_loaders (loaders cfg) = [].
Proof.
  unfold _apply_overrides.
  destruct (overrides_requested self); [|discriminate].
  destruct (first_python_loader (loaders cfg)) as [[i loader]|] eqn:Hfind;
    [discriminate|].
  intros [= <-]. split; [reflexivity|]. split; [reflexivity|].
  apply first_python_loader_none_inv, Hfind.
Qed.

(** X7: the overrides fail in one way only, with the error of the missing
    Python loader, and exactly when an override is requested and the
    configuration holds no Python loader. *)
Theorem apply_overrides_error self cfg :
  (forall e, overrides self cfg = inl e -> e = ValueError "no python loader found")
  /\ ((exists e, overrides self cfg = inl e) <->
      overrides_requested self = true /\ python_loaders (loaders cfg) = []).
Proof.
  split; [intros e He; apply (apply_overrides_inl _ _ _ He)|]. split.
  - intros [e He]. apply (apply_overrides_inl _ _ _ He).
  - intros [Hreq Hzero]. exists (ValueError "no python loader found").
    unfold _apply_overrides.
    rewrite Hreq, (first_python_loader_none _ Hzero). reflexivity.
Qed.

End OverridesMore.

Lemma apply_overrides_idempotent_witness :
  @_apply_overrides unit unit unit unit unit
    (Toy.session ConfigNone (Some ["src/"]) (Some ["m"]) None (Some true))
    (Toy.engine_config
       [IsOtherLoader tt; IsPythonLoader (Toy.py_loader (Some ["m"]) None (Some ["src/"]) false)])
  = inr (Toy.engine_config
       [IsOtherLoader tt; IsPythonLoader (Toy.py_loader (Some ["m"]) None (Some ["src/"]) false)]).
Proof.
  apply (@apply_overrides_idempotent unit unit unit unit unit
           (Toy.session ConfigNone (Some ["src/"]) (Some ["m"]) None (Some true))
           (Toy.engine_config
              [IsOtherLoader tt; IsPythonLoader (Toy.py_loader None None None true)])).
  reflexivity.
Defined.

Lemma apply_overrides_frame_witness :
  length (loaders (Toy.engine_config
            [IsOtherLoader tt; IsPythonLoader (Toy.py_loader (Some ["m"]) None None false)]))
  = length (loaders (Toy.engine_config
            [IsOtherLoader tt; IsPythonLoader (Toy.py_loader None None None true)])).
Proof.
  apply (@apply_overrides_frame unit unit unit unit unit
           (Toy.session ConfigNone None (Some ["m"]) None (Some true))
           (Toy.engine_config
              [IsOtherLoader tt; IsPythonLoader (Toy.py_loader None None None true)])
           (Toy.engine_config
              [IsOtherLoader tt; IsPythonLoader (Toy.py_loader (Some ["m"]) None None false)])).
  reflexivity.
Defined.

Lemma apply_overrides_error_witness :
  exists e, @_apply_overrides unit unit unit unit unit
              (Toy.session ConfigNone None (Some ["m"]) None None)
              (Toy.engine_config Toy.other_yaml) = inl e.
Proof.
  apply (proj2 (@apply_overrides_error unit unit unit unit unit
                  (Toy.session ConfigNone None (Some ["m"]) None None)
                  (Toy.engine_config Toy.other_yaml))).
  split; reflexivity.
Defined.

(** * More on the runs of the session *)

Section RunsMore.
Context {World Dict OtherLoader LoaderRest EngineRest ModuleBody ExtExn : Type}.
Context {X : @Externals World Dict OtherLoader LoaderRest EngineRest ModuleBody ExtExn}.

Implicit Types (self : @RenderSession Dict) (w : World).
Implicit Types (cfg : @PydocMarkdown OtherLoader LoaderRest EngineRest).

Local Abbreviation Run' A := (@M World Dict ExtExn A).

#[local] Set Warnings "-clear-no-such-hyp".

(** *** Exceptions *)

Lemma raises_only_ret {A} Q (a : A) : raises_only Q (ret a : Run' A).
Proof. intros w w' t e H. discriminate. Qed.

Lemma raises_only_get {A} Q (f : World -> A) : raises_only Q (get f : Run' A).
Proof. intros w w' t e H. discriminate. Qed.

Lemma raises_only_emit Q ev : raises_only Q (emit ev : Run' unit).
Proof. intros w w' t e H. discriminate. Qed.

Lemma raises_only_call {A} (Q : @Exn ExtExn -> Prop) ev
    (f : World -> World * (ExtExn + A)) :
  (forall x, Q (External x)) -> raises_only Q (call ev f : Run' A).
Proof.
  intros HQ w w' t e H. unfold call in H.
  destruct (f w) as [w1 [x|a]]; [|discriminate].
  injection H as _ _ <-. apply HQ.
Qed.

Lemma raises_only_bind {A B} Q (m : Run' A) (k : A -> Run' B) :
  raises_only Q m -> (forall a, raises_only Q (k a)) -> raises_only Q (bind m k).
Proof.
  intros Hm Hk w w' t e H. unfold bind in H.
  destruct (m w) as [[w1 t1] [e1|a]] eqn:Em.
  - injection H as _ _ <-. eapply Hm, Em.
  - destruct (k a w1) as [[w2 t2] r] eqn:Ek. injection H as _ _ ->.
    eapply Hk, Ek.
Qed.

Lemma raises_only_for_each {A} Q (l : list A) (body : A -> Run' unit) :
  (forall x, raises_only Q (body x)) -> raises_only Q (for_each l body).
Proof.
  intros H. induction l as [|x l IH]; simpl.
  - apply raises_only_ret.
  - apply raises_only_bind; [apply H | intros _; exact IH].
Qed.

Lemma load_raises self : raises_only script_error (load self).
Proof.
  assert (Hext : forall x : ExtExn, script_error (External x))
    by (intros x; right; exists x; reflexivity).
  unfold load. apply raises_only_bind.
  { unfold loaded_config. destruct (truthy_config (config self));
      [apply raises_only_call, Hext | apply raises_only_ret]. }
  intros c1. apply raises_only_bind.
  { intros w w' t e H.
    destruct (_apply_overrides self c1) as [e1|c2] eqn:E; [|discriminate].
    injection H as _ _ <-. left.
    apply (apply_overrides_inl (ExtExn := ExtExn) self c1 e1 E). }
  intros c2. apply raises_only_bind.
  { destruct (config self); try apply raises_only_ret.
    apply raises_only_bind; [apply raises_only_get|].
    intros a. apply raises_only_call, Hext. }
  intros c3. apply raises_only_bind; [|intros _; apply raises_only_ret].
  destruct (unknown_fields c3); [apply raises_only_ret | apply raises_only_emit].
Qed.

Lemma render_raises self cfg :
  raises_only (fun e => exists x, e = External x) (render self cfg).
Proof.
  assert (Hext : forall x : ExtExn, exists y, @External ExtExn x = External y)
    by (intros x; exists x; reflexivity).
  unfold render.
  apply raises_only_bind; [apply raises_only_call, Hext|]. intros m0.
  apply raises_only_bind; [apply raises_only_call, Hext|]. intros m1.
  apply raises_only_bind; [apply raises_only_call, Hext|]. intros m2.
  apply raises_only_ret.
Qed.

(** X8: [load] raises the error of the missing Python loader or an
    exception of the engine, nothing else; and it raises the former only
    for a session that requests an override, before the engine is
    initialised: the trace then holds at most the call that loaded the
    configuration. *)
Theorem load_errors self w w' t e :
  load self w = (w', t, inl e) ->
  script_error e
  /\ (e = ValueError "no python loader found" ->
      overrides_requested self = true
      /\ Forall (fun ev => ev = CallLoadConfig (config self)) t).
Proof.
  intros H. split; [eapply load_raises, H|]. intros He. subst e.
  unfold load in H. unfold bind at 1 in H.
  destruct (loaded_config (config self) w) as [[w1 t1] [e1|c1]] eqn:E1.
  { injection H as _ _ ->. apply loaded_config_error in E1 as [x Hx]. discriminate. }
  pose proof (loaded_config_trace _ _ _ _ _ E1) as Ht1.
  unfold bind at 1 in H.
  destruct (_apply_overrides self c1) as [e2|c2] eqn:E2; cbn in H.
  - injection H as _ <- _. rewrite List.app_nil_r.
    split; [|exact Ht1].
    apply (apply_overrides_inl (ExtExn := ExtExn) self c1 e2 E2).
  - exfalso. revert H. unfold bind, call, get, emit, ret.
    destruct (config self); repeat (case_match; simplify_eq); congruence.
Qed.

(** X9: [load] calls the engine's [load_config] exactly when the
    configuration of the session is truthy (not [None], not an empty
    dictionary, not the empty string), and initialises the engine only for
    a configuration given as a string; when it returns, it has initialised
    the engine exactly for such a configuration, and it has warned about
    unknown fields exactly when the configuration returned has some. *)
Theorem load_calls self w w' t r :
  load self w = (w', t, r) ->
  (CallLoadConfig (config self) ∈ t <-> truthy_config (config self) = true)
  /\ (forall d, CallInit d ∈ t -> exists path, config self = ConfigStr path)
  /\ (forall c, r = inr c ->
        ((exists d, CallInit d ∈ t) <-> exists path, config self = ConfigStr path)
        /\ (forall fs, LogWarning fs ∈ t <-> fs = unknown_fields c /\ fs <> [])).
Proof.
  unfold load, loaded_config, bind, call, get, emit, ret, of_result, raise.
  intros H.
  repeat (case_match; unfold ret, raise in *; simplify_eq); cbn;
    repeat setoid_rewrite elem_of_cons; repeat setoid_rewrite elem_of_nil;
    naive_solver congruence.
Qed.

(** X10: [render] calls the engine in the order load, process, render and
    stops at the first call that raises: its trace is a prefix of the three
    calls, the whole of them when it returns, and its only exceptions are
    the engine's. *)
Theorem render_calls self cfg w w' t r :
  render self cfg w = (w', t, r) ->
  t `prefix_of` [CallLoadModules; CallProcess; CallRender (renderer_filename cfg)]
  /\ (forall l, r = inr l ->
        t = [CallLoadModules; CallProcess; CallRender (renderer_filename cfg)])
  /\ (forall e, r = inl e -> exists x, e = External x)
  /\ (CallRender (renderer_filename cfg) ∈ t ->
      exists w1 w2 ms ms1,
        pm_load_modules cfg w = (w1, inr ms) /\ pm_process cfg ms w1 = (w2, inr ms1)).
Proof.
  intros H.
  split; [|split; [|split]].
  - revert H. unfold render, bind, call, ret.
    repeat (case_match; simplify_eq); intros [= <- <- <-]; cbn.
    + exists [CallProcess; CallRender (renderer_filename cfg)]. reflexivity.
    + exists [CallRender (renderer_filename cfg)]. reflexivity.
    + exists []. reflexivity.
    + exists []. reflexivity.
  - intros l ->. revert H. unfold render, bind, call, ret.
    repeat (case_match; simplify_eq); intros [= <- <-]; reflexivity.
  - intros e ->. eapply render_raises, H.
  - revert H. unfold render, bind, call, ret.
    repeat (case_match; simplify_eq); intros [= <- <- <-]; cbn; intros Hin;
      repeat (apply elem_of_cons in Hin as [Hin|Hin]; [discriminate|]);
      try (apply elem_of_nil in Hin; contradiction);
      eauto 10.
Qed.

End RunsMore.

(** * More on the runs of the entry loop *)

Section MainMore.
Context {World Dict OtherLoader LoaderRest EngineRest ModuleBody ExtExn : Type}.
Context {X : @Externals World Dict OtherLoader LoaderRest EngineRest ModuleBody ExtExn}.

Implicit Types (self : @RenderSession Dict) (w : World).
Implicit Types (cfg : @PydocMarkdown OtherLoader LoaderRest EngineRest).

Local Abbreviation Loop A := (@M World Dict ExtExn A).

Lemma package_name_of_normalize_dir (d : string) :
  exists n, package_name_of (normalize_dir d) = Some n.
Proof.
  destruct (PyStrFacts.endswith_inv _ _ (normalize_dir_endswith d)) as [s ->].
  rewrite package_name_of_snoc_sep. apply last_split_is_Some.
Qed.


Lemma process_file_raises (config_ package_dir docs_dir file : string) :
  raises_only script_error
    (process_file config_ package_dir docs_dir file : Loop unit).
Proof.
  assert (Hext : forall x : ExtExn, script_error (External x))
    by (intros x; right; exists x; reflexivity).
  unfold process_file.
  apply raises_only_bind; [apply raises_only_emit|]. intros _.
  apply raises_only_bind; [apply raises_only_emit|]. intros _.
  apply raises_only_bind; [apply raises_only_call, Hext|]. intros _.
  apply raises_only_bind; [apply raises_only_emit|]. intros _.
  apply raises_only_bind; [|intros _; apply raises_only_ret].
  unfold load_and_render. apply raises_only_bind; [apply load_raises|].
  intros c w w' t e H. apply render_raises in H as [x ->]. apply Hext.
Qed.

(** X11: whatever its arguments, the entry loop raises only the error of
    the missing Python loader or an exception of the engine or of [os]:
    the index [-2] of the package name is always in range, so no
    [IndexError] comes from it. *)
Theorem main_errors (config_ package_dir docs_dir : string)
    (skip_files : list string) (src_files : option (list string)) w w' t e :
  main config_ package_dir docs_dir skip_files src_files w = (w', t, inl e) ->
  script_error e /\ e <> IndexError.
Proof.
  intros H.
  assert (Hs : script_error e).
  { revert H. generalize w w' t e.
    change (raises_only script_error
              (main config_ package_dir docs_dir skip_files src_files : Loop unit)).
    unfold main.
    destruct (package_name_of_normalize_dir package_dir) as [n ->].
    apply raises_only_bind; [apply raises_only_ret|]. intros n'.
    apply raises_only_bind.
    { destruct src_files; [apply raises_only_ret | apply raises_only_get]. }
    intros l. apply raises_only_for_each. intros file.
    destruct (skipped skip_files n' file);
      [apply raises_only_ret | apply process_file_raises]. }
  split; [exact Hs|]. destruct Hs as [-> | [x ->]]; discriminate.
Qed.


(** X13: when the list of files is empty or every file of it is passed
    over, the run ends well without a single call, log line or change of
    the world. *)
Theorem main_nothing_to_do (config_ package_dir docs_dir : string)
    (skip_files files : list string) (n : string) w :
  package_name_of (normalize_dir package_dir) = Some n ->
  Forall (fun f => skipped skip_files n f = true) files ->
  (main config_ package_dir docs_dir skip_files (Some files) : Loop unit) w
  = (w, [], inr tt).
Proof.
  intros Hn Hall. unfold main. rewrite Hn, !bind_ret_l.
  rewrite <- (List.app_nil_r files). rewrite for_each_passed_over; [reflexivity|].
  eapply Forall_impl; [exact Hall|]. intros f Hf. simpl in Hf. rewrite Hf. reflexivity.
Qed.

(** *** The files in order *)

Lemma logged_app (t1 t2 : list (@Event Dict)) :
  logged (t1 ++ t2) = logged t1 ++ logged t2.
Proof. apply flat_map_app. Qed.

Lemma rendered_to_app (t1 t2 : list (@Event Dict)) :
  rendered_to (t1 ++ t2) = rendered_to t1 ++ rendered_to t2.
Proof. apply flat_map_app. Qed.

Lemma process_file_trace (config_ package_dir docs_dir file : string) w w' t r :
  (process_file config_ package_dir docs_dir file : Loop unit) w = (w', t, r) ->
  logged t = [file]
  /\ (r = inr tt -> rendered_to t = [Some (output_path package_dir docs_dir file)])
  /\ rendered_to t `prefix_of` [Some (output_path package_dir docs_dir file)].
Proof.
  unfold process_file, load_and_render, load, loaded_config, render,
    bind, call, get, emit, of_result.
  intros H.
  repeat (case_match; unfold ret, raise in *; simplify_eq); cbn;
    (split; [reflexivity|]);
    (split; [intros; first [reflexivity | discriminate]|]);
    first [ exists []; reflexivity | eexists; reflexivity ].
Qed.

Lemma for_each_in_order (config_ package_dir docs_dir n : string)
    (skip_files : list string) (l : list string) :
  let out f := Some (output_path package_dir docs_dir f) in
  forall w w' t r,
    for_each l
      (fun file =>
         if skipped skip_files n file then ret tt
         else (process_file config_ package_dir docs_dir file : Loop unit)) w
    = (w', t, r) ->
    let cands := List.filter (fun f => negb (skipped skip_files n f)) l in
    (r = inr tt -> logged t = cands /\ rendered_to t = out <$> cands)
    /\ (forall e, r = inl e ->
          exists done f rest,
            cands = done ++ f :: rest
            /\ logged t = done ++ [f]
            /\ (out <$> done) `prefix_of` rendered_to t
            /\ rendered_to t `prefix_of` (out <$> (done ++ [f]))).
Proof.
  intros out. induction l as [|x l IH]; intros w w' t r H.
  - injection H as <- <- <-. split; [intros _; split; reflexivity|].
    intros e He. discriminate.
  - cbn [for_each] in H. cbn [List.filter].
    destruct (skipped skip_files n x) eqn:Ex; cbn [negb].
    { rewrite bind_ret_l in H. apply IH with w w'. exact H. }
    unfold bind in H.
    destruct (process_file config_ package_dir docs_dir x w)
      as [[w1 t1] [e1|[]]] eqn:Ep.
    + injection H as <- <- <-.
      destruct (process_file_trace _ _ _ _ _ _ _ _ Ep) as (Hlog & _ & Hpre).
      split; [intros He; discriminate|]. intros e [= <-].
      exists [], x, (List.filter (fun f => negb (skipped skip_files n f)) l).
      split; [reflexivity|]. split; [exact Hlog|].
      split; [apply prefix_nil | exact Hpre].
    + destruct (for_each l _ w1) as [[w2 t2] r2] eqn:El.
      injection H as <- <- <-.
      destruct (process_file_trace _ _ _ _ _ _ _ _ Ep) as (Hlog & Hren & _).
      specialize (Hren eq_refl).
      destruct (IH _ _ _ _ El) as [IHok IHerr].
      rewrite logged_app, rendered_to_app, Hlog, Hren.
      split.
      * intros Hr. destruct (IHok Hr) as [-> ->]. split; reflexivity.
      * intros e He. destruct (IHerr e He) as (done & f & rest & Hc & Hl & Hp1 & Hp2).
        exists (x :: done), f, rest.
        split; [rewrite Hc; reflexivity|].
        split; [rewrite Hl; reflexivity|].
        split; [apply (prefix_cons (out x)), Hp1 | apply (prefix_cons (out x)), Hp2].
Qed.

(** X14: the entry loop takes the files that are not passed over one by
    one, in the order of the list, and stops at the first one that fails.
    When the run ends well, the files logged are exactly those files, and
    the engine was asked to render exactly their output paths, in order.
    When it raises, the files logged are the ones done and the failing
    one, in order, and the output paths rendered are those of the files
    done, then at most the one of the failing file. *)
Theorem main_in_order (config_ package_dir docs_dir n : string)
    (skip_files : list string) (src_files : option (list string)) w w' t r :
  package_name_of (normalize_dir package_dir) = Some n ->
  main config_ package_dir docs_dir skip_files src_files w = (w', t, r) ->
  let out f := Some (output_path (normalize_dir package_dir) (normalize_dir docs_dir) f) in
  let cands :=
    List.filter (fun f => negb (skipped skip_files n f))
      match src_files with
      | None => collect skip_files (os_walk (normalize_dir package_dir) w)
      | Some l => l
      end in
  (r = inr tt -> logged t = cands /\ rendered_to t = out <$> cands)
  /\ (forall e, r = inl e ->
        exists done f rest,
          cands = done ++ f :: rest
          /\ logged t = done ++ [f]
          /\ (out <$> done) `prefix_of` rendered_to t
          /\ rendered_to t `prefix_of` (out <$> (done ++ [f]))).
Proof.
  intros Hn H. unfold main in H. rewrite Hn, bind_ret_l in H.
  destruct src_files as [l|].
  - rewrite bind_ret_l in H. exact (for_each_in_order _ _ _ _ _ _ _ _ _ _ H).
  - rewrite bind_get in H. exact (for_each_in_order _ _ _ _ _ _ _ _ _ _ H).
Qed.

End MainMore.

(** * The walk and the guard of the loop, the watch list *)

Section WalkMore.
Context {World Dict OtherLoader LoaderRest EngineRest ModuleBody ExtExn : Type}.
Context {X : @Externals World Dict OtherLoader LoaderRest EngineRest ModuleBody ExtExn}.
Import PyStr PyStrFacts.

Implicit Types (self : @RenderSession Dict) (w : World).
Implicit Types (cfg : @PydocMarkdown OtherLoader LoaderRest EngineRest).

Lemma contains_startswith (s old : string) :
  startswith s old = true -> contains s old = true.
Proof. intros H. destruct s; cbn [contains]; rewrite H; reflexivity. Qed.

Lemma contains_app_r (pre s old : string) :
  contains s old = true -> contains (pre +:+ s) old = true.
Proof.
  intros H. induction pre as [|a pre IH]; [exact H|].
  rewrite app_cons. cbn [contains]. rewrite IH. apply orb_true_r.
Qed.

Lemma contains_middle (pre n rest : string) :
  contains (pre +:+ n +:+ rest) n = true.
Proof. apply contains_app_r, contains_startswith, startswith_app. Qed.

(** Joining the pieces of a split gives the string back. *)
Lemma join_split (c : ascii) (s : string) : join (String c "") (split c s) = s.
Proof.
  induction s as [|a s IH]; [reflexivity|].
  pose proof (split_nonnil c s) as Hne. simpl.
  destruct (Ascii.eqb a c) eqn:E.
  - apply Ascii.eqb_eq in E. subst a.
    destruct (split c s) as [|p ps]; [congruence|].
    rewrite join_cons2, IH. reflexivity.
  - destruct (split c s) as [|p ps]; [congruence|].
    destruct ps as [|q ps].
    + simpl in *. rewrite IH. reflexivity.
    + rewrite join_cons2 in *. rewrite app_cons, IH. reflexivity.
Qed.

Lemma join_snoc_suffix (sep : string) (l : list string) (n : string) :
  exists pre, join sep (l ++ [n]) = pre +:+ n.
Proof.
  induction l as [|x l [pre IH]]; [exists ""; reflexivity|].
  exists (x +:+ sep +:+ pre).
  change ((x :: l) ++ [n]) with (x :: (l ++ [n])).
  destruct (l ++ [n]) as [|y k] eqn:E; [destruct l; discriminate|].
  rewrite join_cons2, IH, !app_assoc. reflexivity.
Qed.

Lemma last_split_suffix (c : ascii) (s n : string) :
  last (split c s) = Some n -> exists pre, s = pre +:+ n.
Proof.
  intros H. apply last_Some in H as [l Hl].
  rewrite <- (join_split c s), Hl. apply join_snoc_suffix.
Qed.

Lemma basename_app_sep (pre name : string) :
  has_char "/" name = false -> OsPath.basename (pre +:+ String "/" name) = name.
Proof.
  intros H. unfold OsPath.basename, OsPath.sep.
  rewrite split_app_sep, (split_no_sep _ _ H). apply List.last_last.
Qed.

Lemma startswith_sep_no (c : ascii) (s : string) :
  has_char c s = false -> startswith s (String c "") = false.
Proof.
  destruct s as [|a s]; [reflexivity|]. simpl. intros H.
  apply orb_false_iff in H as [-> _]. reflexivity.
Qed.

(** A file of the walk, as line 195 joins it. *)
Lemma join2_under_root (root name : string) :
  root <> "" -> has_char "/" name = false ->
  exists pre, OsPath.join2 root name = pre +:+ String "/" name
              /\ exists r, pre +:+ "/" = root +:+ r.
Proof.
  intros Hroot Hname. unfold OsPath.join2.
  rewrite (startswith_sep_no _ _ Hname).
  apply nonempty_true in Hroot. rewrite Hroot. cbn [negb orb].
  destruct (endswith root "/") eqn:E.
  - apply endswith_inv in E as [r0 ->]. exists r0.
    split; [apply app_assoc | exists ""; rewrite app_nil_r; reflexivity].
  - exists root. split; [reflexivity | exists "/"; reflexivity].
Qed.

Lemma collect_not_passed_over (package_dir n : string)
    (skip_files : list string) w :
  let pd := normalize_dir package_dir in
  package_name_of pd = Some n ->
  Forall (fun '(root, _, fs) =>
            startswith root pd = true
            /\ Forall (fun name => has_char "/" name = false) fs)
         (os_walk pd w) ->
  Forall (fun f => skipped skip_files n f = false) (collect skip_files (os_walk pd w)).
Proof.
  intros pd Hn Hwalk. apply Forall_forall. intros f Hf.
  apply elem_of_collect in Hf as (root & ds & fs & name & Hin & Hname & Hskip & _ & ->).
  rewrite Forall_forall in Hwalk. destruct (Hwalk _ Hin) as [Hroot Hfs].
  rewrite Forall_forall in Hfs. specialize (Hfs _ Hname).
  destruct (endswith_inv pd "/" (normalize_dir_endswith package_dir)) as [s Hs].
  rewrite Hs, package_name_of_snoc_sep in Hn.
  apply last_split_suffix in Hn as [pre Hpre].
  apply startswith_inv in Hroot. set (r1 := drop (String.length pd) root) in Hroot.
  assert (Hne : root <> "").
  { rewrite Hroot, Hs. destruct s; discriminate. }
  destruct (join2_under_root root name Hne Hfs) as (p & Hjoin & r & Hp).
  unfold skipped. rewrite Hjoin, (basename_app_sep _ _ Hfs).
  rewrite (bool_decide_eq_false_2 _ Hskip). cbn [orb].
  apply negb_false_iff.
  change (p +:+ String "/" name) with (p +:+ ("/" +:+ name)).
  rewrite <- app_assoc, Hp, Hroot, Hs, Hpre, !app_assoc.
  apply contains_middle.
Qed.

(** The walk leaves out no Python file whose name is not in the skip list. *)
Lemma collect_complete (skip_files : list string)
    (walked : list (string * list string * list string))
    (root : string) (ds fs : list string) (name : string) :
  (root, ds, fs) ∈ walked -> name ∈ fs ->
  endswith name ".py" = true -> (name ∉ skip_files) ->
  OsPath.join2 root name ∈ collect skip_files walked.
Proof.
  intros Hw Hname Hpy Hskip. unfold collect.
  apply list_elem_of_In, in_flat_map. exists (root, ds, fs).
  split; [apply list_elem_of_In, Hw|].
  apply list_elem_of_In, list_elem_of_fmap. exists name. split; [reflexivity|].
  apply list_elem_of_In, filter_In. split; [apply list_elem_of_In, Hname|].
  apply andb_true_iff. split; [exact Hpy|].
  apply negb_true_iff, bool_decide_eq_false. exact Hskip.
Qed.

Lemma filter_nothing_passed_over (skip_files : list string) (n : string)
    (l : list string) :
  Forall (fun f => skipped skip_files n f = false) l ->
  List.filter (fun f => negb (skipped skip_files n f)) l = l.
Proof.
  induction 1 as [|x l Hx _ IH]; [reflexivity|].
  cbn [List.filter]. rewrite Hx, IH. reflexivity.
Qed.

(** X15: when the walk lists directories under the package directory and
    file names without a separator, as [os.walk] does, the walk collects
    every Python file of the tree whose name is not in the skip list, and
    the guard of the loop passes over none of the files collected.  So a
    run on the walked tree that returns has processed exactly the files
    collected, in the order of the walk: they are the files logged, and
    their output paths are the paths rendered to.  A run that raises has
    processed the files collected up to the one that failed. *)
Theorem walked_files_not_passed_over (config_ package_dir docs_dir n : string)
    (skip_files : list string) w :
  let pd := normalize_dir package_dir in
  let dd := normalize_dir docs_dir in
  let files := collect skip_files (os_walk pd w) in
  package_name_of pd = Some n ->
  Forall (fun '(root, _, fs) =>
            startswith root pd = true
            /\ Forall (fun name => has_char "/" name = false) fs)
         (os_walk pd w) ->
  (forall root ds fs name,
      (root, ds, fs) ∈ os_walk pd w -> name ∈ fs ->
      endswith name ".py" = true -> (name ∉ skip_files) ->
      OsPath.join2 root name ∈ files
      /\ skipped skip_files n (OsPath.join2 root name) = false)
  /\ Forall (fun f => skipped skip_files n f = false) files
  /\ (forall w' t,
        main config_ package_dir docs_dir skip_files None w = (w', t, inr tt) ->
        logged t = files
        /\ rendered_to t = (fun f => Some (output_path pd dd f)) <$> files)
  /\ (forall w' t e,
        main config_ package_dir docs_dir skip_files None w = (w', t, inl e) ->
        exists done f rest,
          files = done ++ f :: rest
          /\ logged t = done ++ [f]
          /\ ((fun f => Some (output_path pd dd f)) <$> done) `prefix_of` rendered_to t).
Proof.
  intros pd dd files Hn Hwalk.
  pose proof (collect_not_passed_over package_dir n skip_files w Hn Hwalk) as Hall.
  fold pd files in Hall.
  pose proof (filter_nothing_passed_over _ _ _ Hall) as Hfilter.
  assert (Hmain : main config_ package_dir docs_dir skip_files None w
                  = for_each files
                      (fun file =>
                         if skipped skip_files n file then ret tt
                         else process_file config_ pd dd file) w).
  { unfold main. fold pd dd. rewrite Hn, bind_ret_l, bind_get. reflexivity. }
  split; [|split; [exact Hall|split]].
  - intros root ds fs name Hin Hname Hpy Hskip.
    assert (Hc : OsPath.join2 root name ∈ files)
      by (eapply collect_complete; eassumption).
    split; [exact Hc|]. rewrite Forall_forall in Hall. apply Hall, Hc.
  - intros w' t H. rewrite Hmain in H.
    destruct (for_each_in_order config_ pd dd n skip_files files w w' t (inr tt) H)
      as [Hok _].
    rewrite Hfilter in Hok. apply Hok. reflexivity.
  - intros w' t e H. rewrite Hmain in H.
    destruct (for_each_in_order config_ pd dd n skip_files files w w' t (inl e) H)
      as [_ Herr].
    rewrite Hfilter in Herr.
    destruct (Herr e eq_refl) as (done & f & rest & Hc & Hl & Hp & _).
    exists done, f, rest. split; [exact Hc|]. split; [exact Hl | exact Hp].
Qed.

(** X16: when [render] returns, the engine has loaded, processed and
    rendered in turn, and the list returned has no duplicates, holds
    exactly the file names of the modules as the engine's rendering left
    them, with the configuration when it is a string, and is at most one
    longer than the list of modules (not longer at all when the
    configuration is not a string). *)
Theorem render_result self cfg w w' t (l : list string) :
  render self cfg w = (w', t, inr l) ->
  exists w1 w2 ms ms1 (ms2 : list (@ApiModule ModuleBody)),
    pm_load_modules cfg w = (w1, inr ms)
    /\ pm_process cfg ms w1 = (w2, inr ms1)
    /\ pm_render cfg ms1 w2 = (w', inr ms2)
    /\ NoDup l
    /\ (forall x, x ∈ l <->
          (exists m, m ∈ ms2 /\ x = location_filename m) \/ config self = ConfigStr x)
    /\ length l <= S (length ms2)
    /\ ((forall path, config self <> ConfigStr path) -> length l <= length ms2).
Proof.
  unfold render, bind, call, ret. intros H.
  destruct (pm_load_modules cfg w) as [w1 [x|ms]] eqn:E0; [discriminate|].
  destruct (pm_process cfg ms w1) as [w2 [x|ms1]] eqn:E1; [discriminate|].
  destruct (pm_render cfg ms1 w2) as [w3 [x|ms2]] eqn:E2; [discriminate|].
  injection H as <- <- <-.
  exists w1, w2, ms, ms1, ms2.
  split; [reflexivity|]. split; [exact E1|]. split; [exact E2|].
  assert (Hmem : forall x, x ∈ elements (watch_set self ms2) <->
            (exists m, m ∈ ms2 /\ x = location_filename m) \/ config self = ConfigStr x).
  { intros x. rewrite elem_of_elements. apply elem_of_watch_set. }
  split; [apply NoDup_elements|]. split; [exact Hmem|].
  split.
  - assert (Hsub : elements (watch_set self ms2) ⊆+
              (location_filename <$> ms2)
              ++ match config self with ConfigStr p => [p] | _ => [] end).
    { apply NoDup_submseteq; [apply NoDup_elements|].
      intros x Hx. apply Hmem in Hx. apply elem_of_app.
      destruct Hx as [(m & Hm & ->) | Hc].
      - left. apply list_elem_of_fmap. eauto.
      - right. rewrite Hc. left. }
    apply submseteq_length in Hsub. rewrite List.length_app, length_fmap in Hsub.
    destruct (config self); simpl in Hsub; lia.
  - intros Hno.
    assert (Hsub : elements (watch_set self ms2) ⊆+ (location_filename <$> ms2)).
    { apply NoDup_submseteq; [apply NoDup_elements|].
      intros x Hx. apply Hmem in Hx.
      destruct Hx as [(m & Hm & ->) | Hc]; [|exfalso; exact (Hno _ Hc)].
      apply list_elem_of_fmap. eauto. }
    apply submseteq_length in Hsub. rewrite length_fmap in Hsub. exact Hsub.
Qed.

End WalkMore.

(** * More runs on the small engine *)

Section ToyRunsMore.
Import Toy.

Lemma load_errors_witness :
  script_error (@ValueError unit "no python loader found")
  /\ (@ValueError unit "no python loader found" = ValueError "no python loader found" ->
      overrides_requested (session (ConfigStr "cfg.yml") None None None (Some false)) = true
      /\ Forall (fun ev => ev = CallLoadConfig (ConfigStr "cfg.yml"))
                [@CallLoadConfig unit (ConfigStr "cfg.yml")]).
Proof.
  apply (load_errors (X := externals other_yaml [])
           (session (ConfigStr "cfg.yml") None None None (Some false)) [] []).
  reflexivity.
Defined.

Lemma load_calls_witness :
  @CallLoadConfig unit (ConfigStr "cfg.yml")
    ∈ [CallLoadConfig (ConfigStr "cfg.yml"); CallInit "/work"]
  <-> truthy_config (X := externals python_yaml []) (ConfigStr "cfg.yml") = true.
Proof.
  apply (load_calls (X := externals python_yaml [])
           (session (ConfigStr "cfg.yml") None None None None) [] []
           [CallLoadConfig (ConfigStr "cfg.yml"); CallInit "/work"]
           (inr (engine_config python_yaml))).
  reflexivity.
Defined.

Lemma render_calls_witness :
  [@CallLoadModules unit; CallProcess; CallRender (Some "out.md")]
    `prefix_of` [CallLoadModules; CallProcess; CallRender (Some "out.md")].
Proof.
  apply (render_calls (X := externals python_yaml [])
           (session ConfigNone None None None None)
           (set_renderer_filename (engine_config python_yaml) "out.md")
           [] ["out.md"] _ (inr [])).
  reflexivity.
Defined.

Lemma render_result_witness :
  exists w1 w2 ms ms1 (ms2 : list (@ApiModule unit)),
    pm_load_modules (Externals := externals python_yaml [])
      (engine_config [IsPythonLoader (py_loader (Some ["a"; "a"]) None None true)]) []
    = (w1, inr ms)
    /\ pm_process (Externals := externals python_yaml [])
         (engine_config [IsPythonLoader (py_loader (Some ["a"; "a"]) None None true)])
         ms w1 = (w2, inr ms1)
    /\ pm_render (Externals := externals python_yaml [])
         (engine_config [IsPythonLoader (py_loader (Some ["a"; "a"]) None None true)])
         ms1 w2 = ([], inr ms2)
    /\ NoDup ["a.py"]
    /\ (forall x, x ∈ ["a.py"] <->
          (exists m, m ∈ ms2 /\ x = location_filename m)
          \/ @ConfigNone unit = ConfigStr x)
    /\ length ["a.py"] <= S (length ms2)
    /\ ((forall path, @ConfigNone unit <> ConfigStr path) ->
        length ["a.py"] <= length ms2).
Proof.
  apply (render_result (X := externals python_yaml [])
           (session ConfigNone None None None None)
           (engine_config [IsPythonLoader (py_loader (Some ["a"; "a"]) None None true)])
           [] [] [CallLoadModules; CallProcess; CallRender None] ["a.py"]).
  vm_compute. reflexivity.
Defined.

Lemma main_errors_witness :
  script_error (@ValueError unit "no python loader found")
  /\ @ValueError unit "no python loader found" <> IndexError.
Proof.
  apply (main_errors (X := externals other_yaml []) "cfg.yml" "pkg" "docs"
           skip_default (Some ["pkg/a.py"]) [] []
           [LogInfo "pkg/a.py"; CallFile2module "pkg/a.py" "pkg/"; CallMakedirs "docs";
            NewSession (mkRenderSession (ConfigStr "cfg.yml") (Some true)
                          (Some ["pkg/"]) (Some ["a"]) (Some []) (Some false));
            CallLoadConfig (ConfigStr "cfg.yml")]).
  vm_compute. reflexivity.
Defined.

Lemma main_nothing_to_do_witness :
  main (X := externals python_yaml []) "cfg.yml" "pkg" "docs" skip_default
       (Some ["pkg/__init__.py"; "elsewhere/a.py"]) []
  = ([], [], inr tt).
Proof.
  apply (main_nothing_to_do (X := externals python_yaml []) "cfg.yml" "pkg" "docs"
           skip_default ["pkg/__init__.py"; "elsewhere/a.py"] "pkg" []).
  - reflexivity.
  - repeat constructor.
Defined.

Lemma main_in_order_witness :
  logged (events (main (X := externals python_yaml []) "cfg.yml" "pkg" "docs"
                    skip_default (Some ["pkg/b.py"; "pkg/__init__.py"; "pkg/a.py"])) [])
  = ["pkg/b.py"; "pkg/a.py"]
  /\ rendered_to
       (events (main (X := externals python_yaml []) "cfg.yml" "pkg" "docs"
                  skip_default (Some ["pkg/b.py"; "pkg/__init__.py"; "pkg/a.py"])) [])
     = [Some "docs/b.md"; Some "docs/a.md"].
Proof.
  apply (main_in_order (X := externals python_yaml []) "cfg.yml" "pkg" "docs" "pkg"
           skip_default (Some ["pkg/b.py"; "pkg/__init__.py"; "pkg/a.py"]) []
           ["docs/b.md"; "docs/a.md"] _ (inr tt)).
  - reflexivity.
  - vm_compute. reflexivity.
  - reflexivity.
Defined.

Lemma walked_files_not_passed_over_witness :
  (forall root ds fs name,
      (root, ds, fs) ∈ [("pkg/", ["sub"], ["a.py"; "__init__.py"]);
                        ("pkg/sub", [], ["b.py"; "notes.txt"])] ->
      name ∈ fs -> PyStr.endswith name ".py" = true -> (name ∉ skip_default) ->
      OsPath.join2 root name ∈ ["pkg/a.py"; "pkg/sub/b.py"]
      /\ skipped skip_default "pkg" (OsPath.join2 root name) = false)
  /\ Forall (fun f => skipped skip_default "pkg" f = false)
            ["pkg/a.py"; "pkg/sub/b.py"]
  /\ logged
       (events (main (X := externals python_yaml
                             [("", ["sub"], ["a.py"; "__init__.py"]);
                              ("sub", [], ["b.py"; "notes.txt"])])
                  "cfg.yml" "pkg" "docs" skip_default None) [])
     = ["pkg/a.py"; "pkg/sub/b.py"]
  /\ rendered_to
       (events (main (X := externals python_yaml
                             [("", ["sub"], ["a.py"; "__init__.py"]);
                              ("sub", [], ["b.py"; "notes.txt"])])
                  "cfg.yml" "pkg" "docs" skip_default None) [])
     = [Some "docs/a.md"; Some "docs/sub/b.md"].
Proof.
  destruct (walked_files_not_passed_over
              (X := externals python_yaml
                      [("", ["sub"], ["a.py"; "__init__.py"]);
                       ("sub", [], ["b.py"; "notes.txt"])])
              "cfg.yml" "pkg" "docs" "pkg" skip_default [])
    as (Hcomplete & Hguard & Hok & _).
  - reflexivity.
  - repeat constructor.
  - split; [exact Hcomplete|]. split; [exact Hguard|].
    apply (Hok ["docs/a.md"; "docs/sub/b.md"] _). vm_compute. reflexivity.
Defined.

End ToyRunsMore.

(** * The guard of the loop with an empty package name *)

Section GuardMore.
Import PyStr PyStrFacts.

Lemma contains_empty (s : string) : contains s "" = true.
Proof. destruct s; reflexivity. Qed.

Lemma package_name_of_empty (d : string) :
  normalize_dir d = "/" \/ endswith (normalize_dir d) "//" = true ->
  package_name_of (normalize_dir d) = Some "".
Proof.
  intros H.
  destruct (endswith_inv _ _ (normalize_dir_endswith d)) as [s Hs].
  rewrite Hs in *. rewrite package_name_of_snoc_sep.
  assert (Hsplit : forall m, s +:+ "/" = m +:+ "/" -> split "/" s = split "/" m).
  { intros m Hm. apply (f_equal (split "/")) in Hm.
    rewrite !split_snoc_sep in Hm. apply app_inj_tail in Hm as [Hm _]. exact Hm. }
  destruct H as [H | H].
  - rewrite (Hsplit "" H). reflexivity.
  - apply endswith_inv in H as [m Hm].
    change (m +:+ "//") with (m +:+ ("/" +:+ "/")) in Hm.
    rewrite <- app_assoc in Hm.
    rewrite (Hsplit _ Hm), split_snoc_sep. apply last_snoc.
Qed.

(** X17: for a package directory that is "/" (also the empty string, made
    "/") or that ends with two separators, the package name is empty and
    the guard of the loop no longer looks at the path: a file is passed
    over exactly when its base name is in the skip list. *)
Theorem guard_with_empty_package_name (package_dir : string)
    (skip_files : list string) (file : string) :
  normalize_dir package_dir = "/" \/ endswith (normalize_dir package_dir) "//" = true ->
  package_name_of (normalize_dir package_dir) = Some ""
  /\ skipped skip_files "" file = bool_decide (OsPath.basename file ∈ skip_files).
Proof.
  intros H. split; [apply package_name_of_empty, H|].
  unfold skipped. rewrite contains_empty. apply orb_false_r.
Qed.

Lemma guard_with_empty_package_name_witness :
  package_name_of (normalize_dir "") = Some ""
  /\ skipped Toy.skip_default "" "/tmp/unrelated/notes.py"
     = bool_decide (OsPath.basename "/tmp/unrelated/notes.py" ∈ Toy.skip_default).
Proof.
  apply guard_with_empty_package_name. left. reflexivity.
Defined.

End GuardMore.
